(** * Parking Lot Simulation: a shallow embedding of [main.cpp]

    The program keeps a vector of parked vehicles (cars, trucks and
    motorbikes), charges a time-based fee when a vehicle leaves, and
    stores the parked vehicles in a text file between runs.

    Conventions of the embedding:
    - [time_t] values are integers ([Z], seconds since the epoch); the
      clock read by [time(0)] is an explicit argument [now];
    - [double] amounts are exact rationals ([Q]): the rounding of binary
      floating point is not part of this model;
    - the console is a list of messages returned by each operation;
    - the file [parking_data.txt] is an [option string], [None] when it
      cannot be opened for reading; whether it can be opened for writing
      is an argument of [saveData]. *)

From Stdlib Require Import ZArith QArith Qminmax Lia Bool List.
From Stdlib Require Import Ascii String DecimalString DecimalPos.
Import ListNotations.

Open Scope Z_scope.

(** ** Vehicles *)

(** The three concrete classes derived from [Vehicle]. *)
Inductive VehicleClass : Type := Car | Truck | Motorbike.

(** An object of one of the derived classes.  The field [type] of the
    base class is fixed by the derived constructor, so it is read off the
    class by [getType]. *)
Record Vehicle : Type := mkVehicle {
  vclass : VehicleClass;
  licensePlate : string;
  entryTime : Z
}.

(** [Vehicle::Vehicle]: an [entry] of 0 stands for "now". *)
Definition Vehicle_new (c : VehicleClass) (plate : string) (entry now : Z)
  : Vehicle :=
  {| vclass := c;
     licensePlate := plate;
     entryTime := if entry =? 0 then now else entry |}.

Definition getLicensePlate (v : Vehicle) : string := licensePlate v.

Definition getType (v : Vehicle) : string :=
  match vclass v with
  | Car => "Car"
  | Truck => "Truck"
  | Motorbike => "Motorbike"
  end%string.

Definition getEntryTime (v : Vehicle) : Z := entryTime v.

(** The local [hourlyRate] of each override of [calculateFee]. *)
Definition hourlyRate (c : VehicleClass) : Q :=
  match c with
  | Car => 20
  | Truck => 50
  | Motorbike => 10
  end%Q.

(** [x < y] on rationals, as a boolean. *)
Definition Qltb (x y : Q) : bool := negb (Qle_bool y x).

(** [difftime(now, entryTime) / 3600.0]. *)
Definition elapsedHours (now entry : Z) : Q :=
  (inject_Z (now - entry) / 3600)%Q.

(** The body shared by [Car::calculateFee], [Truck::calculateFee] and
    [Motorbike::calculateFee]; only [hourlyRate] differs. *)
Definition calculateFee (now : Z) (v : Vehicle) : Q :=
  let hours := elapsedHours now (entryTime v) in
  let hours := if Qltb hours 1 then 1%Q else hours in
  (hours * hourlyRate (vclass v))%Q.

(** ** The parking lot *)

Definition capacity : Z := 7.

Record ParkingLot : Type := mkLot {
  parkedVehicles : list Vehicle;
  totalRevenue : Q
}.

(** What the program writes to [cout], one constructor per message.  A
    message carries the values passed to [cout], not the characters that
    come out: the [fee] of a receipt is the amount computed, which [cout]
    prints rounded to six significant digits. *)
Inductive Message : Type :=
| MsgLotFull (plate : string)          (* Parking Lot is Full! P cannot enter. *)
| MsgParked (type plate : string)      (* T (P) parked successfully. *)
| MsgReceipt (plate type : string) (fee : Q)  (* [EXIT] P is leaving ... Total Fee *)
| MsgNotFound (plate : string)         (* >> ERROR: Vehicle with plate P not found! *)
| MsgSaveError                         (* Error: Could not open file for saving. *)
| MsgSaved                             (* Data saved successfully. *)
| MsgLoaded                            (* Previous data loaded. *)
| MsgInvalidSelection                  (* Invalid selection! Please try again. *)
| MsgInvalidInput                      (* Invalid input. Please enter a number. *)
| MsgStatus (size : nat) (revenue : Q) (rows : list (string * string * Z)).

Definition size (l : list Vehicle) : Z := Z.of_nat (List.length l).

(** [ParkingLot::parkVehicle] *)
Definition parkVehicle (newVehicle : Vehicle) (lot : ParkingLot)
  : ParkingLot * list Message :=
  if size (parkedVehicles lot) >=? capacity then
    (lot, [MsgLotFull (getLicensePlate newVehicle)])
  else
    ({| parkedVehicles := parkedVehicles lot ++ [newVehicle];
        totalRevenue := totalRevenue lot |},
     [MsgParked (getType newVehicle) (getLicensePlate newVehicle)]).

(** The loop of [ParkingLot::unparkVehicle]: walk the vector from the
    front, stop at the first vehicle whose plate matches and erase it.
    Returns the erased vehicle and the vector without it. *)
Fixpoint unparkScan (plate : string) (l : list Vehicle)
  : option (Vehicle * list Vehicle) :=
  match l with
  | [] => None
  | v :: rest =>
      if String.eqb (getLicensePlate v) plate then Some (v, rest)
      else match unparkScan plate rest with
           | Some (w, rest') => Some (w, v :: rest')
           | None => None
           end
  end.

(** [ParkingLot::unparkVehicle] *)
Definition unparkVehicle (now : Z) (plate : string) (lot : ParkingLot)
  : ParkingLot * list Message :=
  match unparkScan plate (parkedVehicles lot) with
  | Some (v, rest) =>
      let fee := calculateFee now v in
      ({| parkedVehicles := rest;
          totalRevenue := (totalRevenue lot + fee)%Q |},
       [MsgReceipt (getLicensePlate v) (getType v) fee])
  | None => (lot, [MsgNotFound plate])
  end.

(** [ParkingLot::displayStatus] *)
Definition displayStatus (lot : ParkingLot) : ParkingLot * list Message :=
  (lot,
   [MsgStatus (List.length (parkedVehicles lot)) (totalRevenue lot)
      (map (fun v => (getType v, getLicensePlate v, getEntryTime v))
           (parkedVehicles lot))]).

(** ** The input stream of [loadData]

    An [ifstream] is modelled by the characters not yet consumed; an
    extraction that sets [failbit] returns [None].  Once an extraction of
    the chain [inFile >> type >> plate >> timeEntry] fails, the later ones
    do nothing and the loop condition is false. *)

(** [isspace] in the classic locale: space, and tab to carriage return. *)
Definition isSpace (c : ascii) : bool :=
  let n := nat_of_ascii c in
  (Nat.eqb n 32 || (Nat.leb 9 n && Nat.leb n 13))%bool.

(** Leading white space is skipped before every formatted extraction. *)
Fixpoint skipWs (s : string) : string :=
  match s with
  | String c s' => if isSpace c then skipWs s' else s
  | EmptyString => s
  end.

(** The characters up to the next white space or the end of input. *)
Fixpoint takeWord (s : string) : string * string :=
  match s with
  | String c s' =>
      if isSpace c then (EmptyString, s)
      else let (w, rest) := takeWord s' in (String c w, rest)
  | EmptyString => (EmptyString, s)
  end.

(** [operator>>(istream&, string&)]: fails when no character is
    extracted. *)
Definition extractString (s : string) : option (string * string) :=
  match skipWs s with
  | EmptyString => None
  | String c s' => Some (takeWord (String c s'))
  end.

(** The value of a decimal digit, [c - '0']; no value for other
    characters. *)
Definition digitOf (c : ascii) : option Z :=
  let n := Z.of_N (N_of_ascii c) in
  if (48 <=? n) && (n <=? 57) then Some (n - 48) else None.

(** Accumulate decimal digits until the first character that is not one. *)
Fixpoint readDigits (acc : Z) (s : string) : Z * string :=
  match s with
  | String c s' =>
      match digitOf c with
      | Some d => readDigits (10 * acc + d) s'
      | None => (acc, s)
      end
  | EmptyString => (acc, s)
  end.

(** [time_t] is a 64-bit signed integer. *)
Definition time_t_min : Z := - 2 ^ 63.
Definition time_t_max : Z := 2 ^ 63 - 1.
Definition in_time_t (z : Z) : bool := (time_t_min <=? z) && (z <=? time_t_max).

(** At least one digit must follow the optional sign. *)
Definition readNumber (negative : bool) (s : string) : option (Z * string) :=
  match s with
  | String c _ =>
      match digitOf c with
      | Some _ =>
          let (n, rest) := readDigits 0 s in
          let v := if negative then - n else n in
          if in_time_t v then Some (v, rest) else None
      | None => None
      end
  | EmptyString => None
  end.

(** [operator>>(istream&, long&)]: optional sign, decimal digits; no
    digit or a value out of range sets [failbit]. *)
Definition extractLong (s : string) : option (Z * string) :=
  match skipWs s with
  | String "-" s' => readNumber true s'
  | String "+" s' => readNumber false s'
  | s' => readNumber false s'
  end.

(** One evaluation of the loop condition
    [inFile >> type >> plate >> timeEntry]. *)
Definition readRecord (s : string) : option (string * string * Z * string) :=
  match extractString s with
  | None => None
  | Some (type, s1) =>
      match extractString s1 with
      | None => None
      | Some (plate, s2) =>
          match extractLong s2 with
          | None => None
          | Some (timeEntry, s3) => Some (type, plate, timeEntry, s3)
          end
      end
  end.

(** The body of the loop: the factory on the type name.  A name that is
    none of the three adds nothing. *)
Definition loadOne (now : Z) (type plate : string) (timeEntry : Z)
    (parked : list Vehicle) : list Vehicle :=
  if String.eqb type "Car" then
    parked ++ [Vehicle_new Car plate timeEntry now]
  else if String.eqb type "Truck" then
    parked ++ [Vehicle_new Truck plate timeEntry now]
  else if String.eqb type "Motorbike" then
    parked ++ [Vehicle_new Motorbike plate timeEntry now]
  else parked.

(** *** The loop of [loadData] *)

(** [while (inFile >> type >> plate >> timeEntry) { ... }]: the loop ends
    at the first record that cannot be read.  [fuel] bounds the number of
    iterations. *)
Fixpoint loadLoopFuel (fuel : nat) (now : Z) (s : string)
    (parked : list Vehicle) : list Vehicle :=
  match fuel with
  | O => parked
  | S fuel' =>
      match readRecord s with
      | Some (type, plate, timeEntry, rest) =>
          loadLoopFuel fuel' now rest (loadOne now type plate timeEntry parked)
      | None => parked
      end
  end.

(** Each record read consumes input, so the loop makes at most as many
    iterations as the stream has characters ([loadLoop_eq] below). *)
Definition loadLoop (now : Z) (s : string) (parked : list Vehicle)
  : list Vehicle :=
  loadLoopFuel (String.length s) now s parked.

(** ** Persistence *)

Definition newline : string := String (ascii_of_nat 10) EmptyString.

(** [operator<<(ostream&, long)]: the decimal digits, after a minus sign
    for a negative number. *)
Definition showLong (z : Z) : string := NilEmpty.string_of_int (Z.to_int z).

(** One iteration of the loop of [saveData]:
    [outFile << type << " " << plate << " " << entryTime << endl]. *)
Definition saveLine (v : Vehicle) : string :=
  (getType v ++ " " ++ getLicensePlate v ++ " " ++ showLong (getEntryTime v)
     ++ newline)%string.

Fixpoint saveLines (l : list Vehicle) : string :=
  match l with
  | [] => EmptyString
  | v :: rest => (saveLine v ++ saveLines rest)%string
  end.

(** [ParkingLot::saveData].  [writable] tells whether the file can be
    opened for writing; the result is the file after the call. *)
Definition saveData (writable : bool) (file : option string) (lot : ParkingLot)
  : option string * list Message :=
  if writable then (Some (saveLines (parkedVehicles lot)), [MsgSaved])
  else (file, [MsgSaveError]).

(** [ParkingLot::loadData] *)
Definition loadData (now : Z) (file : option string) (lot : ParkingLot)
  : ParkingLot * list Message :=
  match file with
  | None => (lot, [])
  | Some s =>
      ({| parkedVehicles := loadLoop now s (parkedVehicles lot);
          totalRevenue := totalRevenue lot |},
       [MsgLoaded])
  end.

(** [ParkingLot::ParkingLot]: revenue 0, an empty vector, then [loadData]. *)
Definition ParkingLot_new (now : Z) (file : option string)
  : ParkingLot * list Message :=
  loadData now file {| parkedVehicles := []; totalRevenue := 0 |}.

(** [ParkingLot::~ParkingLot]: the file left behind by [saveData]. *)
Definition ParkingLot_delete (writable : bool) (file : option string)
    (lot : ParkingLot) : option string * list Message :=
  saveData writable file lot.

(** The (category, plate, entry instant) triple of a vehicle. *)
Definition triple (v : Vehicle) : VehicleClass * string * Z :=
  (vclass v, licensePlate v, entryTime v).

(** ** The operator's commands

    One iteration of the loop of [main] after a number was read: the
    [switch] on [choice].  A vehicle parked from the console is built
    without an entry time, so the constructor reads the clock. *)
Inductive Command : Type :=
| CmdPark (c : VehicleClass) (plate : string)   (* choices 1, 2 and 3 *)
| CmdUnpark (plate : string)                    (* choice 4 *)
| CmdDisplay                                    (* choice 5 *)
| CmdOther                                      (* any other number but 0 *)
| CmdNotANumber.                                (* [cin >> choice] failed *)

Definition step (now : Z) (cmd : Command) (lot : ParkingLot)
  : ParkingLot * list Message :=
  match cmd with
  | CmdPark c plate => parkVehicle (Vehicle_new c plate 0 now) lot
  | CmdUnpark plate => unparkVehicle now plate lot
  | CmdDisplay => displayStatus lot
  | CmdOther => (lot, [MsgInvalidSelection])
  | CmdNotANumber => (lot, [MsgInvalidInput])
  end.

(** A session: the commands with the clock reading at each of them. *)
Fixpoint run (cmds : list (Z * Command)) (lot : ParkingLot) : ParkingLot :=
  match cmds with
  | [] => lot
  | (now, cmd) :: rest => run rest (fst (step now cmd lot))
  end.

(** [main]: construct the lot from the file, obey the commands until
    choice 0, and save on the way out.  The result is the file left
    behind. *)
Definition main (start : Z) (file : option string) (cmds : list (Z * Command))
    (writable : bool) : option string :=
  let lot := fst (ParkingLot_new start file) in
  fst (ParkingLot_delete writable file (run cmds lot)).

(** [displayStatus] calls [displayInfo] for every parked vehicle, and
    [displayInfo] builds a [string] from the result of [ctime], which is
    a null pointer for a time whose year does not fit an [int]: the
    program then ends at once, without saving.  [ctimeOk] tells for which
    times [ctime] gives a text.  A session reaches choice 0 when no status
    is asked for while a vehicle is parked whose entry time [ctime] cannot
    print. *)
Fixpoint completes (ctimeOk : Z -> bool) (cmds : list (Z * Command))
    (lot : ParkingLot) : bool :=
  match cmds with
  | [] => true
  | (now, cmd) :: rest =>
      match cmd with
      | CmdDisplay => forallb (fun v => ctimeOk (entryTime v)) (parkedVehicles lot)
      | _ => true
      end
      && completes ctimeOk rest (fst (step now cmd lot))
  end.

(** [main] with the end of the program in [displayInfo] taken into
    account: a session that does not reach choice 0 never runs the
    destructor and leaves the file as it was. *)
Definition mainChecked (ctimeOk : Z -> bool) (start : Z) (file : option string)
    (cmds : list (Z * Command)) (writable : bool) : option string :=
  if completes ctimeOk cmds (fst (ParkingLot_new start file))
  then main start file cmds writable
  else file.

(** ** Records that can be written and read back *)

(** A word that [operator>>] reads back whole: no white space in it. *)
Fixpoint noSpace (s : string) : bool :=
  match s with
  | String c s' => negb (isSpace c) && noSpace s'
  | EmptyString => true
  end.

(** A plate as typed at the console: a non-empty token without white
    space. *)
Definition plateOk (p : string) : bool :=
  negb (String.eqb p EmptyString) && noSpace p.

(** A vehicle whose record can be written and read: a token for a plate
    and an entry time that is a [time_t]. *)
Definition storable (v : Vehicle) : bool :=
  plateOk (licensePlate v) && in_time_t (entryTime v).

(** The vehicle that [loadData] builds from the record of [v]. *)
Definition reload (now : Z) (v : Vehicle) : Vehicle :=
  Vehicle_new (vclass v) (licensePlate v) (entryTime v) now.

(** The stream stops a number at a character that is not a digit. *)
Definition stopsNumber (rest : string) : bool :=
  match rest with
  | String c _ => match digitOf c with Some _ => false | None => true end
  | EmptyString => true
  end.

(** A vehicle that comes back from the file as it was written: storable,
    and with an entry time that the constructor does not take for "none
    given". *)
Definition persistable (v : Vehicle) : bool :=
  storable v && negb (entryTime v =? 0).

(** White space only; a gap between two fields has at least one
    character. *)
Fixpoint allSpace (s : string) : bool :=
  match s with
  | String c s' => isSpace c && allSpace s'
  | EmptyString => true
  end.

Definition isGap (s : string) : bool :=
  negb (String.eqb s EmptyString) && allSpace s.

(** A record as [loadData] accepts it: the three fields with gaps of
    white space between and after them.  [saveLine] writes it with one
    space, one space and a line break. *)
Definition recordText (type plate : string) (timeEntry : Z) (g1 g2 g3 : string)
  : string :=
  (type ++ g1 ++ plate ++ g2 ++ showLong timeEntry ++ g3)%string.

(** The records of vehicles, each with its own three gaps. *)
Fixpoint recordsText (l : list (Vehicle * (string * string * string)))
  : string :=
  match l with
  | [] => EmptyString
  | (v, (g1, g2, g3)) :: rest =>
      (recordText (getType v) (getLicensePlate v) (getEntryTime v) g1 g2 g3
         ++ recordsText rest)%string
  end.

(** A vehicle that can be stored, with three gaps for its record. *)
Definition layoutOk (x : Vehicle * (string * string * string)) : bool :=
  let '(v, (g1, g2, g3)) := x in
  storable v && isGap g1 && isGap g2 && isGap g3.

(** A type name for which the factory of [loadData] has no class. *)
Definition unknownType (type : string) : bool :=
  negb (String.eqb type "Car") && negb (String.eqb type "Truck")
  && negb (String.eqb type "Motorbike").

(** ** The console of a session *)

(** The loop of [main] with what it writes to [cout] (the menu apart). *)
Fixpoint session (cmds : list (Z * Command)) (lot : ParkingLot)
  : ParkingLot * list Message :=
  match cmds with
  | [] => (lot, [])
  | (now, cmd) :: rest =>
      let (lot1, out1) := step now cmd lot in
      let (lot2, out2) := session rest lot1 in
      (lot2, out1 ++ out2)
  end.

(** The fees of the releases of a console log, in order: for each
    receipt the value of the variable [fee] that [unparkVehicle] adds to
    [totalRevenue] and passes to [cout] (not the digits that [cout] then
    prints, which are the amount rounded to six significant digits). *)
Definition feesOf (out : list Message) : list Q :=
  flat_map (fun m => match m with
                     | MsgReceipt _ _ fee => [fee]
                     | _ => []
                     end) out.

Definition isParkedMsg (m : Message) : bool :=
  match m with MsgParked _ _ => true | _ => false end.

Definition isReceiptMsg (m : Message) : bool :=
  match m with MsgReceipt _ _ _ => true | _ => false end.

(** A command the console can give: the plate of a vehicle to park was
    read by [cin >> plate], the clock reading is a [time_t] and not 0. *)
Definition commandOk (c : Z * Command) : bool :=
  let (now, cmd) := c in
  in_time_t now && negb (now =? 0) &&
  match cmd with
  | CmdPark _ plate => plateOk plate
  | _ => true
  end.

(** ** [Vehicle::displayInfo] *)

Fixpoint spaces (n : nat) : string :=
  match n with
  | O => EmptyString
  | S k => String " " (spaces k)
  end.

(** [cout << left << setw(w) << s]: [s], then spaces up to [w] columns;
    a longer [s] is written whole. *)
Definition putLeft (w : nat) (s : string) : string :=
  (s ++ spaces (w - String.length s))%string.

(** The removal of the line break that [ctime] puts at the end:
    [if (!timeStr.empty() && timeStr[timeStr.length()-1] == '\n')
       timeStr.erase(timeStr.length()-1)]. *)
Definition trimNewline (timeStr : string) : string :=
  let n := String.length timeStr in
  match String.get (n - 1) timeStr with
  | Some c =>
      if negb (Nat.eqb n 0) && Ascii.eqb c (ascii_of_nat 10)
      then String.substring 0 (n - 1) timeStr
      else timeStr
  | None => timeStr
  end.

(** [Vehicle::displayInfo].  The library function [ctime], which depends
    on the time zone of the machine, is an argument. *)
Definition displayInfo (ctime : Z -> string) (v : Vehicle) : string :=
  (putLeft 15 (getType v) ++ putLeft 15 (getLicensePlate v) ++ "Entry: "
     ++ trimNewline (ctime (entryTime v)) ++ newline)%string.

(** ** Sample lots and files *)

Definition sampleFile : string :=
  ("Car 34ABC12 1700000000" ++ newline ++ "Bus 06XY77 1700000100" ++ newline
   ++ "Motorbike 35KL9 -42" ++ newline)%string.

Definition fullLot : ParkingLot :=
  {| parkedVehicles :=
       map (fun p => mkVehicle Car p 1700000000)
           ["P1"; "P2"; "P3"; "P4"; "P5"; "P6"; "P7"]%string;
     totalRevenue := 0 |}.

Definition twinLot : ParkingLot :=
  {| parkedVehicles :=
       [mkVehicle Car "A1" 1000; mkVehicle Truck "B2" 2000;
        mkVehicle Motorbike "B2" 3000; mkVehicle Car "C3" 4000];
     totalRevenue := 35 |}.

(** A lot whose only vehicle was admitted while the clock read 0. *)
Definition epochLot : ParkingLot :=
  fst (parkVehicle (Vehicle_new Car "34ABC12" 0 0) (fst (ParkingLot_new 0 None))).

Definition brokenFile : string :=
  ("Car A 100" ++ newline ++ "Truck B" ++ newline ++ "Motorbike C 300"
   ++ newline)%string.

Definition tab : string := String (ascii_of_nat 9) EmptyString.

(** Two records laid out with tabs, several spaces and line breaks. *)
Definition looseRecords : list (Vehicle * (string * string * string)) :=
  [(mkVehicle Car "34ABC12" 1700000000, (tab, "   ", newline ++ newline));
   (mkVehicle Motorbike "35KL9" (-42), (newline, tab ++ " ", " "))]%string.

(** A session: three vehicles come, one leaves, one is not found. *)
Definition sampleSession : list (Z * Command) :=
  [(1700000000, CmdPark Car "34ABC12"); (1700000060, CmdPark Truck "06XY77");
   (1700000120, CmdDisplay); (1700000180, CmdPark Motorbike "35KL9");
   (1700004000, CmdUnpark "06XY77"); (1700004060, CmdUnpark "NONE");
   (1700004120, CmdOther)]%string.

(** A stand-in for the times that [ctime] can print. *)
Definition sampleCtimeOk (t : Z) : bool :=
  (- 2 ^ 55 <=? t) && (t <=? 2 ^ 55).

(** A file with an entry time whose year does not fit an [int], and a
    session that asks for the status. *)
Definition farFutureFile : string :=
  ("Car A 4611686018427387904" ++ newline)%string.

Definition displaySession : list (Z * Command) :=
  [(1700000000, CmdPark Car "X"); (1700000060, CmdDisplay)]%string.

(** The line without its timestamp is followed by a record that starts
    with a digit. *)
Definition shiftedFile : string :=
  ("Car A 100" ++ newline ++ "Truck B" ++ newline ++ "4x4 C 300" ++ newline
   ++ "Motorbike D 400" ++ newline)%string.

(** A stand-in for [ctime]: the same text for every time. *)
Definition sampleCtime (t : Z) : string :=
  ("Tue Nov 14 22:13:20 2023" ++ newline)%string.

(** A store of eight well-formed records. *)
Definition eightRecords : string :=
  saveLines
    (map (fun p => mkVehicle Car p 1700000000)
         ["P1"; "P2"; "P3"; "P4"; "P5"; "P6"; "P7"; "P8"]%string).

Example loadLoop_sample :
  map triple (loadLoop 1700003600 sampleFile []) =
  [(Car, "34ABC12"%string, 1700000000); (Motorbike, "35KL9"%string, -42)].
Proof. reflexivity. Qed.

Example save_sample :
  saveLines [mkVehicle Car "34ABC12" 1700000000; mkVehicle Motorbike "35KL9" (-42)]
  = ("Car 34ABC12 1700000000" ++ newline ++ "Motorbike 35KL9 -42" ++ newline)%string.
Proof. reflexivity. Qed.

(** * The loop of [loadData] terminates

    Every successful extraction consumes input. *)

Lemma skipWs_length s : (String.length (skipWs s) <= String.length s)%nat.
Proof.
  induction s as [|c s IH]; simpl; [lia|].
  destruct (isSpace c); simpl; lia.
Qed.

Lemma takeWord_length s w rest :
  takeWord s = (w, rest) ->
  (String.length w + String.length rest = String.length s)%nat.
Proof.
  revert w rest; induction s as [|c s IH]; simpl; intros w rest H.
  - injection H as <- <-. reflexivity.
  - destruct (isSpace c).
    + injection H as <- <-. reflexivity.
    + destruct (takeWord s) as [w' r'] eqn:E. injection H as <- <-.
      simpl. specialize (IH _ _ eq_refl). lia.
Qed.

Lemma extractString_shorter s w rest :
  extractString s = Some (w, rest) ->
  (String.length rest < String.length s)%nat.
Proof.
  unfold extractString. pose proof (skipWs_length s) as Hs.
  destruct (skipWs s) as [|c s'] eqn:E; [discriminate|].
  intros [= H]. simpl in H.
  assert (isSpace c = false) as Hc.
  { clear -E. induction s as [|d s IH]; simpl in E; [discriminate|].
    destruct (isSpace d) eqn:Hd; [auto|]. injection E as -> _. exact Hd. }
  rewrite Hc in H. destruct (takeWord s') as [w' r'] eqn:Et.
  injection H as <- <-. apply takeWord_length in Et. simpl in Hs. lia.
Qed.

Lemma readDigits_length acc s n rest :
  readDigits acc s = (n, rest) ->
  (String.length rest <= String.length s)%nat.
Proof.
  revert acc; induction s as [|c s IH]; simpl; intros acc H.
  - injection H as _ <-. simpl; lia.
  - destruct (digitOf c).
    + apply IH in H. lia.
    + injection H as _ <-. simpl; lia.
Qed.

Lemma readNumber_shorter b s v rest :
  readNumber b s = Some (v, rest) ->
  (String.length rest < String.length s)%nat.
Proof.
  unfold readNumber. destruct s as [|c s]; [discriminate|].
  destruct (digitOf c) as [d|] eqn:Hd; [|discriminate].
  destruct (readDigits 0 (String c s)) as [n r] eqn:E.
  destruct (in_time_t (if b then - n else n)); [|discriminate].
  intros [= _ <-]. simpl in E. rewrite Hd in E.
  apply readDigits_length in E. simpl. lia.
Qed.

Lemma extractLong_shorter s v rest :
  extractLong s = Some (v, rest) ->
  (String.length rest < String.length s)%nat.
Proof.
  unfold extractLong. pose proof (skipWs_length s) as Hs.
  destruct (skipWs s) as [|c s'] eqn:E.
  - intros H. apply readNumber_shorter in H. simpl in H. lia.
  - intros H.
    assert (exists b t, readNumber b t = Some (v, rest) /\
                        (String.length t <= String.length (String c s'))%nat)
      as (b & t & Ht & Hl).
    { destruct c as [[|] [|] [|] [|] [|] [|] [|] [|]];
        try (exists false, (String (Ascii b b0 b1 b2 b3 b4 b5 b6) s'));
        first [ now (eexists _, _; split; [exact H | simpl; lia]) ]. }
    apply readNumber_shorter in Ht. lia.
Qed.

Lemma readRecord_shorter s type plate timeEntry rest :
  readRecord s = Some (type, plate, timeEntry, rest) ->
  (String.length rest < String.length s)%nat.
Proof.
  unfold readRecord.
  destruct (extractString s) as [[ty s1]|] eqn:E1; [|discriminate].
  destruct (extractString s1) as [[pl s2]|] eqn:E2; [|discriminate].
  destruct (extractLong s2) as [[t s3]|] eqn:E3; [|discriminate].
  intros [= _ _ _ <-].
  apply extractString_shorter in E1, E2. apply extractLong_shorter in E3. lia.
Qed.

(** With as much fuel as the stream has characters the loop runs to its
    end: more fuel gives the same vehicles. *)
Lemma loadLoopFuel_enough now fuel1 fuel2 s parked :
  (String.length s <= fuel1)%nat -> (String.length s <= fuel2)%nat ->
  loadLoopFuel fuel1 now s parked = loadLoopFuel fuel2 now s parked.
Proof.
  revert fuel2 s parked.
  induction fuel1 as [|fuel1 IH]; intros fuel2 s parked H1 H2.
  - destruct s; [|simpl in H1; lia]. destruct fuel2; reflexivity.
  - destruct fuel2 as [|fuel2].
    + destruct s; [|simpl in H2; lia]. reflexivity.
    + simpl. destruct (readRecord s) as [[[[type plate] timeEntry] rest]|] eqn:E;
        [|reflexivity].
      apply readRecord_shorter in E. apply IH; lia.
Qed.

(** The equation of the [while] loop. *)
Lemma loadLoop_eq now s parked :
  loadLoop now s parked =
  match readRecord s with
  | Some (type, plate, timeEntry, rest) =>
      loadLoop now rest (loadOne now type plate timeEntry parked)
  | None => parked
  end.
Proof.
  unfold loadLoop.
  rewrite (loadLoopFuel_enough now _ (S (String.length s)) s parked)
    by lia.
  simpl. destruct (readRecord s) as [[[[type plate] timeEntry] rest]|] eqn:E;
    [|reflexivity].
  apply readRecord_shorter in E. apply loadLoopFuel_enough; lia.
Qed.

(** * Fees *)

Section Fees.

Lemma elapsedHours_lt_1 now entry :
  (elapsedHours now entry < 1)%Q <-> now - entry < 3600.
Proof.
  unfold elapsedHours, Qlt, Qdiv, Qmult, Qinv; cbn [Qnum Qden inject_Z].
  lia.
Qed.

Lemma elapsedHours_le now e1 e2 :
  e2 <= e1 -> (elapsedHours now e1 <= elapsedHours now e2)%Q.
Proof.
  intros H. unfold elapsedHours, Qle, Qdiv, Qmult, Qinv;
    cbn [Qnum Qden inject_Z]. nia.
Qed.

Lemma Qltb_lt x y : Qltb x y = true <-> (x < y)%Q.
Proof.
  unfold Qltb. rewrite negb_true_iff.
  destruct (Qle_bool y x) eqn:E.
  - apply Qle_bool_iff in E. split; [discriminate|].
    intros H. exfalso. exact (Qlt_not_le _ _ H E).
  - split; [intros _|reflexivity].
    apply Qnot_le_lt. intros H. apply Qle_bool_iff in H. congruence.
Qed.

Lemma Qltb_ge x y : Qltb x y = false <-> (y <= x)%Q.
Proof.
  unfold Qltb. rewrite negb_false_iff. apply Qle_bool_iff.
Qed.

Lemma hourlyRate_pos c : (0 < hourlyRate c)%Q.
Proof. destruct c; reflexivity. Qed.

(** The fee, with the branch on [hours < 1.0] decided. *)
Lemma calculateFee_short now v :
  now - entryTime v < 3600 ->
  calculateFee now v = (1 * hourlyRate (vclass v))%Q.
Proof.
  intros H. unfold calculateFee.
  apply elapsedHours_lt_1, Qltb_lt in H. rewrite H. reflexivity.
Qed.

Lemma calculateFee_long now v :
  3600 <= now - entryTime v ->
  calculateFee now v =
  (elapsedHours now (entryTime v) * hourlyRate (vclass v))%Q.
Proof.
  intros H. unfold calculateFee.
  destruct (Qltb (elapsedHours now (entryTime v)) 1) eqn:E; [|reflexivity].
  apply Qltb_lt, elapsedHours_lt_1 in E. lia.
Qed.

End Fees.

(** C1. For each of the three classes and every entry instant not later
    than the current time, the fee is
    [rate * max(1, (now - entry) / 3600)], with rates 20 (car), 50 (truck)
    and 10 (motorbike); hence it is not negative. *)
Theorem C1_fee_formula (now : Z) (v : Vehicle) :
  entryTime v <= now ->
  (calculateFee now v ==
     hourlyRate (vclass v) * Qmax 1 (inject_Z (now - entryTime v) / 3600))%Q
  /\ (0 <= calculateFee now v)%Q
  /\ hourlyRate Car = 20%Q /\ hourlyRate Truck = 50%Q
  /\ hourlyRate Motorbike = 10%Q.
Proof.
  intros _.
  assert (calculateFee now v ==
          hourlyRate (vclass v) * Qmax 1 (elapsedHours now (entryTime v)))%Q
    as Heq.
  { unfold calculateFee.
    destruct (Qltb (elapsedHours now (entryTime v)) 1) eqn:E.
    - apply Qltb_lt, Qlt_le_weak in E.
      rewrite (Q.max_l _ _ E). apply Qmult_comm.
    - apply Qltb_ge in E. rewrite (Q.max_r _ _ E). apply Qmult_comm. }
  split; [exact Heq|]. split; [|repeat split].
  rewrite Heq. apply Qmult_le_0_compat.
  - apply Qlt_le_weak, hourlyRate_pos.
  - apply Qle_trans with 1%Q; [discriminate | apply Q.le_max_l].
Qed.

Lemma C1_fee_formula_witness :
  (calculateFee 7200 (mkVehicle Truck "34ABC12" 0) ==
     hourlyRate Truck * Qmax 1 (inject_Z (7200 - 0) / 3600))%Q
  /\ (0 <= calculateFee 7200 (mkVehicle Truck "34ABC12" 0))%Q
  /\ hourlyRate Car = 20%Q /\ hourlyRate Truck = 50%Q
  /\ hourlyRate Motorbike = 10%Q.
Proof.
  apply (C1_fee_formula 7200 (mkVehicle Truck "34ABC12" 0)). simpl. lia.
Defined.

(** C8. For each class, the fee does not decrease when the parked
    duration grows, and it equals the hourly rate exactly when the
    duration is at most one hour (3600 seconds). *)
Theorem C8_fee_monotone (c : VehicleClass) (plate : string) (now d1 d2 : Z) :
  0 <= d1 -> d1 <= d2 ->
  (calculateFee now (mkVehicle c plate (now - d1)) <=
   calculateFee now (mkVehicle c plate (now - d2)))%Q
  /\ ((calculateFee now (mkVehicle c plate (now - d1)) == hourlyRate c)%Q
      <-> d1 <= 3600).
Proof.
  intros H0 H12. split.
  - destruct (Z_lt_le_dec d1 3600) as [Hs1|Hl1].
    + rewrite (calculateFee_short now (mkVehicle c plate (now - d1)))
        by (simpl; lia).
      destruct (Z_lt_le_dec d2 3600) as [Hs2|Hl2].
      * rewrite (calculateFee_short now (mkVehicle c plate (now - d2)))
          by (simpl; lia).
        apply Qle_refl.
      * rewrite (calculateFee_long now (mkVehicle c plate (now - d2)))
          by (simpl; lia).
        simpl. apply Qmult_le_compat_r.
        -- apply Qnot_lt_le. rewrite elapsedHours_lt_1. lia.
        -- apply Qlt_le_weak, hourlyRate_pos.
    + rewrite (calculateFee_long now (mkVehicle c plate (now - d1)))
        by (simpl; lia).
      rewrite (calculateFee_long now (mkVehicle c plate (now - d2)))
        by (simpl; lia).
      simpl. apply Qmult_le_compat_r.
      * apply elapsedHours_le. lia.
      * apply Qlt_le_weak, hourlyRate_pos.
  - destruct (Z_lt_le_dec d1 3600) as [Hs1|Hl1].
    + rewrite (calculateFee_short now (mkVehicle c plate (now - d1)))
        by (simpl; lia).
      simpl. split; [lia|]. intros _. apply Qmult_1_l.
    + rewrite (calculateFee_long now (mkVehicle c plate (now - d1)))
        by (simpl; lia).
      simpl. replace (now - (now - d1)) with d1 by lia.
      unfold elapsedHours, Qeq, Qdiv, Qmult, Qinv.
      destruct c; cbn [Qnum Qden inject_Z hourlyRate]; lia.
Qed.

Lemma C8_fee_monotone_witness :
  (calculateFee 10000 (mkVehicle Car "A1" (10000 - 1800)) <=
   calculateFee 10000 (mkVehicle Car "A1" (10000 - 5400)))%Q
  /\ ((calculateFee 10000 (mkVehicle Car "A1" (10000 - 1800)) == hourlyRate Car)%Q
      <-> 1800 <= 3600).
Proof.
  apply (C8_fee_monotone Car "A1" 10000 1800 5400); lia.
Defined.

(** C10. For each class and every entry instant, later than the current
    time or not, the fee is at least one hour at the class's rate, which
    is positive: an elapsed time below one hour, negative ones included,
    is charged as exactly one hour. *)
Theorem C10_fee_at_least_one_hour (now : Z) (v : Vehicle) :
  (hourlyRate (vclass v) <= calculateFee now v)%Q
  /\ (0 < hourlyRate (vclass v))%Q
  /\ (now - entryTime v < 3600 ->
      (calculateFee now v == hourlyRate (vclass v))%Q).
Proof.
  split; [|split; [apply hourlyRate_pos|]].
  - destruct (Z_lt_le_dec (now - entryTime v) 3600) as [Hs|Hl].
    + rewrite (calculateFee_short now v Hs). rewrite Qmult_1_l. apply Qle_refl.
    + rewrite (calculateFee_long now v Hl).
      rewrite <- (Qmult_1_l (hourlyRate (vclass v))) at 1.
      apply Qmult_le_compat_r.
      * apply Qnot_lt_le. rewrite elapsedHours_lt_1. lia.
      * apply Qlt_le_weak, hourlyRate_pos.
  - intros Hs. rewrite (calculateFee_short now v Hs). apply Qmult_1_l.
Qed.

Lemma C10_fee_at_least_one_hour_witness :
  (hourlyRate Motorbike <= calculateFee 100 (mkVehicle Motorbike "M7" 5000))%Q
  /\ (0 < hourlyRate Motorbike)%Q
  /\ (calculateFee 100 (mkVehicle Motorbike "M7" 5000) == hourlyRate Motorbike)%Q.
Proof.
  destruct (C10_fee_at_least_one_hour 100 (mkVehicle Motorbike "M7" 5000))
    as (H1 & H2 & H3).
  split; [exact H1|]. split; [exact H2|]. apply H3. simpl. lia.
Defined.

(** * The registry: admission and release *)

Section Registry.

Lemma unparkScan_found plate l v rest :
  unparkScan plate l = Some (v, rest) ->
  exists front back,
    l = front ++ v :: back /\ rest = front ++ back /\
    getLicensePlate v = plate /\
    Forall (fun w => getLicensePlate w <> plate) front.
Proof.
  revert v rest. induction l as [|a l IH]; simpl; intros v rest H.
  - discriminate.
  - destruct (String.eqb (getLicensePlate a) plate) eqn:E.
    + injection H as <- <-. apply String.eqb_eq in E.
      exists [], l. repeat split; auto.
    + destruct (unparkScan plate l) as [[w r]|]; [|discriminate].
      injection H as <- <-.
      destruct (IH _ _ eq_refl) as (front & back & -> & -> & Hp & Hf).
      apply String.eqb_neq in E.
      exists (a :: front), back. repeat split; auto.
Qed.

Lemma unparkScan_none plate l :
  unparkScan plate l = None <->
  Forall (fun w => getLicensePlate w <> plate) l.
Proof.
  induction l as [|a l IH]; simpl.
  - split; auto.
  - destruct (String.eqb (getLicensePlate a) plate) eqn:E.
    + apply String.eqb_eq in E. split; [discriminate|].
      intros H. inversion H; subst. contradiction.
    + apply String.eqb_neq in E.
      destruct (unparkScan plate l) as [[w r]|].
      * split; [discriminate|]. intros H. inversion H; subst.
        apply IH in H3. discriminate.
      * split; [|reflexivity]. intros _. constructor; [exact E|].
        apply IH. reflexivity.
Qed.

(** [parkVehicle], [unparkVehicle] and [displayStatus] keep the vector
    within the capacity. *)
Lemma parkVehicle_bound v lot :
  size (parkedVehicles lot) <= capacity ->
  size (parkedVehicles (fst (parkVehicle v lot))) <= capacity.
Proof.
  intros H. unfold parkVehicle.
  destruct (size (parkedVehicles lot) >=? capacity) eqn:E; simpl; [exact H|].
  unfold size in *. rewrite length_app. simpl. lia.
Qed.

Lemma unparkVehicle_bound now plate lot :
  size (parkedVehicles lot) <= capacity ->
  size (parkedVehicles (fst (unparkVehicle now plate lot))) <= capacity.
Proof.
  intros H. unfold unparkVehicle.
  destruct (unparkScan plate (parkedVehicles lot)) as [[v rest]|] eqn:E;
    simpl; [|exact H].
  apply unparkScan_found in E as (front & back & Hl & -> & _).
  unfold size in *. rewrite Hl in H. rewrite length_app in *. simpl in H. lia.
Qed.

Lemma displayStatus_same lot : fst (displayStatus lot) = lot.
Proof. reflexivity. Qed.

Lemma step_bound now cmd lot :
  size (parkedVehicles lot) <= capacity ->
  size (parkedVehicles (fst (step now cmd lot))) <= capacity.
Proof.
  destruct cmd; simpl; auto using parkVehicle_bound, unparkVehicle_bound.
Qed.

(** Once within the capacity, a lot stays within it for the whole
    session. *)
Lemma run_bound cmds lot :
  size (parkedVehicles lot) <= capacity ->
  size (parkedVehicles (run cmds lot)) <= capacity.
Proof.
  revert lot. induction cmds as [|[now cmd] cmds IH]; intros lot H; simpl.
  - exact H.
  - apply IH, step_bound, H.
Qed.

End Registry.

(** C2. Admitting a vehicle into a lot whose occupancy equals the capacity,
    7, rejects it: the lot (vector and revenue) is returned unchanged and
    the console names the rejected plate.  Below the capacity the vehicle
    is appended at the end of the vector.  Whenever the vehicle is not
    admitted the lot is unchanged. *)
Theorem C2_admit (newVehicle : Vehicle) (lot : ParkingLot) :
  capacity = 7
  /\ (size (parkedVehicles lot) = capacity ->
      parkVehicle newVehicle lot =
      (lot, [MsgLotFull (getLicensePlate newVehicle)]))
  /\ (size (parkedVehicles lot) < capacity ->
      parkVehicle newVehicle lot =
      ({| parkedVehicles := parkedVehicles lot ++ [newVehicle];
          totalRevenue := totalRevenue lot |},
       [MsgParked (getType newVehicle) (getLicensePlate newVehicle)]))
  /\ (size (parkedVehicles lot) >= capacity ->
      fst (parkVehicle newVehicle lot) = lot).
Proof.
  split; [reflexivity|]. unfold parkVehicle.
  repeat split; intros H;
    destruct (size (parkedVehicles lot) >=? capacity) eqn:E;
    try reflexivity; lia.
Qed.

Lemma C2_admit_witness :
  parkVehicle (mkVehicle Truck "P8" 1700000100) fullLot =
    (fullLot, [MsgLotFull "P8"])
  /\ parkVehicle (mkVehicle Truck "P8" 1700000100) (mkLot [] 0) =
     (mkLot [mkVehicle Truck "P8" 1700000100] 0, [MsgParked "Truck" "P8"])
  /\ fst (parkVehicle (mkVehicle Truck "P8" 1700000100) fullLot) = fullLot.
Proof.
  destruct (C2_admit (mkVehicle Truck "P8" 1700000100) fullLot)
    as (_ & Hfull & _ & Hge).
  destruct (C2_admit (mkVehicle Truck "P8" 1700000100) (mkLot [] 0))
    as (_ & _ & Hfree & _).
  split; [apply Hfull; reflexivity|].
  split; [apply Hfree; reflexivity|].
  apply Hge. vm_compute. discriminate.
Defined.

(** C4. When some parked vehicle has the given plate, release removes
    exactly one entry, the first one in admission order whose plate
    matches; the other vehicles keep their relative order; the revenue
    grows by that vehicle's fee at the current time. *)
Theorem C4_release_present (now : Z) (plate : string) (lot : ParkingLot) :
  (exists v, In v (parkedVehicles lot) /\ getLicensePlate v = plate) ->
  exists front v back,
    parkedVehicles lot = front ++ v :: back
    /\ getLicensePlate v = plate
    /\ Forall (fun w => getLicensePlate w <> plate) front
    /\ unparkVehicle now plate lot =
       ({| parkedVehicles := front ++ back;
           totalRevenue := (totalRevenue lot + calculateFee now v)%Q |},
        [MsgReceipt plate (getType v) (calculateFee now v)])
    /\ List.length (parkedVehicles (fst (unparkVehicle now plate lot))) =
       pred (List.length (parkedVehicles lot)).
Proof.
  intros (u & Hin & Hu). unfold unparkVehicle.
  destruct (unparkScan plate (parkedVehicles lot)) as [[v rest]|] eqn:E.
  - apply unparkScan_found in E as (front & back & Hl & -> & Hp & Hf).
    exists front, v, back. rewrite Hp. repeat split; auto.
    simpl. rewrite Hl, !length_app. simpl. lia.
  - apply unparkScan_none in E. rewrite Forall_forall in E.
    exfalso. exact (E u Hin Hu).
Qed.

Lemma C4_release_present_witness :
  exists front v back,
    parkedVehicles twinLot = front ++ v :: back
    /\ getLicensePlate v = "B2"%string
    /\ Forall (fun w => getLicensePlate w <> "B2"%string) front
    /\ unparkVehicle 9200 "B2" twinLot =
       ({| parkedVehicles := front ++ back;
           totalRevenue := (totalRevenue twinLot + calculateFee 9200 v)%Q |},
        [MsgReceipt "B2" (getType v) (calculateFee 9200 v)])
    /\ List.length (parkedVehicles (fst (unparkVehicle 9200 "B2" twinLot))) =
       pred (List.length (parkedVehicles twinLot)).
Proof.
  apply (C4_release_present 9200 "B2" twinLot).
  exists (mkVehicle Truck "B2" 2000). split; [|reflexivity].
  simpl. right. left. reflexivity.
Defined.

Example release_twin :
  unparkVehicle 9200 "B2" twinLot =
  ({| parkedVehicles :=
        [mkVehicle Car "A1" 1000; mkVehicle Motorbike "B2" 3000;
         mkVehicle Car "C3" 4000];
      totalRevenue := (35 + calculateFee 9200 (mkVehicle Truck "B2" 2000))%Q |},
   [MsgReceipt "B2" "Truck" (calculateFee 9200 (mkVehicle Truck "B2" 2000))]).
Proof. reflexivity. Qed.

(** Seven cars fill the lot, the eighth is turned away; the car parked
    an hour ago pays 20 and leaves six behind. *)
Example scenario_full_lot :
  let cmds :=
    map (fun p => (1700000000, CmdPark Car p))
        ["P1"; "P2"; "P3"; "P4"; "P5"; "P6"; "P7"; "P8"]%string
    ++ [(1700003600, CmdUnpark "P3")] in
  let lot := run cmds (fst (ParkingLot_new 1700000000 None)) in
  map licensePlate (parkedVehicles lot) =
    ["P1"; "P2"; "P4"; "P5"; "P6"; "P7"]%string
  /\ (totalRevenue lot == 20)%Q.
Proof. split; reflexivity. Qed.

(** C5. When no parked vehicle has the given plate, release reports that
    the plate was not found and changes nothing: the vector, hence the
    occupancy, and the revenue are those of the lot before the call. *)
Theorem C5_release_absent (now : Z) (plate : string) (lot : ParkingLot) :
  (forall v, In v (parkedVehicles lot) -> getLicensePlate v <> plate) ->
  unparkVehicle now plate lot = (lot, [MsgNotFound plate]).
Proof.
  intros H. unfold unparkVehicle.
  apply Forall_forall, unparkScan_none in H. rewrite H. reflexivity.
Qed.

Lemma C5_release_absent_witness :
  unparkVehicle 9200 "XYZ" (mkLot [] 0) = (mkLot [] 0, [MsgNotFound "XYZ"]).
Proof.
  apply (C5_release_absent 9200 "XYZ" (mkLot [] 0)).
  simpl. intros v [].
Defined.

(** * Persistence: what [loadData] reads back from what [saveData] wrote *)

(** Evaluate [digitOf] at a character that is known. *)
Ltac eval_digit :=
  repeat match goal with
  | |- context [digitOf (Ascii ?a ?b ?c ?d ?e ?f ?g ?h)] =>
      let r := eval vm_compute in (digitOf (Ascii a b c d e f g h)) in
      change (digitOf (Ascii a b c d e f g h)) with r
  end; cbv beta iota.

Section Stream.

Lemma append_assoc (a b c : string) :
  ((a ++ b) ++ c = a ++ (b ++ c))%string.
Proof. induction a as [|x a IH]; simpl; [reflexivity | now rewrite IH]. Qed.

Lemma takeWord_word w c rest :
  noSpace w = true -> isSpace c = true ->
  takeWord (w ++ String c rest) = (w, String c rest).
Proof.
  intros Hw Hc. induction w as [|x w IH]; simpl.
  - rewrite Hc. reflexivity.
  - simpl in Hw. apply andb_true_iff in Hw as [Hx Hw].
    apply negb_true_iff in Hx. rewrite Hx, (IH Hw). reflexivity.
Qed.

Lemma extractString_word w c rest :
  plateOk w = true -> isSpace c = true ->
  extractString (w ++ String c rest) = Some (w, String c rest).
Proof.
  unfold plateOk. intros Hw Hc. apply andb_true_iff in Hw as [Hne Hw].
  destruct w as [|x w]; [discriminate|].
  unfold extractString.
  assert (skipWs (String x w ++ String c rest) =
          String x (w ++ String c rest)) as ->.
  { simpl in Hw |- *. apply andb_true_iff in Hw as [Hx _].
    apply negb_true_iff in Hx. now rewrite Hx. }
  change (String x (w ++ String c rest))
    with (String x w ++ String c rest)%string.
  now rewrite takeWord_word.
Qed.

Lemma extractString_skip c s :
  isSpace c = true -> extractString (String c s) = extractString s.
Proof. intros Hc. unfold extractString. simpl. now rewrite Hc. Qed.

Lemma extractLong_skip c s :
  isSpace c = true -> extractLong (String c s) = extractLong s.
Proof. intros Hc. unfold extractLong. simpl. now rewrite Hc. Qed.

Lemma readRecord_skip c s :
  isSpace c = true -> readRecord (String c s) = readRecord s.
Proof. intros Hc. unfold readRecord. now rewrite extractString_skip. Qed.

(** *** Reading back a number *)

Lemma readDigits_acc u acc rest :
  readDigits (Z.pos acc) (NilEmpty.string_of_uint u ++ rest) =
  readDigits (Z.pos (Pos.of_uint_acc u acc)) rest.
Proof.
  revert acc. induction u; intros acc; cbn [NilEmpty.string_of_uint];
    [reflexivity | ..];
    cbn [append readDigits Pos.of_uint_acc]; eval_digit;
    match goal with
    | |- readDigits ?a _ = readDigits (Z.pos (Pos.of_uint_acc _ ?p)) _ =>
        replace a with (Z.pos p) by lia
    end; apply IHu.
Qed.

Lemma readDigits_uint u rest :
  readDigits 0 (NilEmpty.string_of_uint u ++ rest) =
  readDigits (Z.of_N (Pos.of_uint u)) rest.
Proof.
  induction u; cbn [NilEmpty.string_of_uint];
    [reflexivity | ..];
    cbn [append readDigits Pos.of_uint Z.of_N]; eval_digit;
    change (10 * 0 + 0) with 0; try exact IHu;
    match goal with
    | |- readDigits ?a _ = readDigits (Z.pos (Pos.of_uint_acc _ ?p)) _ =>
        change a with (Z.pos p)
    end; apply readDigits_acc.
Qed.

Lemma readDigits_stop acc rest :
  stopsNumber rest = true -> readDigits acc rest = (acc, rest).
Proof.
  destruct rest as [|c rest]; simpl; [reflexivity|].
  destruct (digitOf c); [discriminate | reflexivity].
Qed.

Lemma readDigits_pos p rest :
  stopsNumber rest = true ->
  readDigits 0 (NilEmpty.string_of_uint (Pos.to_uint p) ++ rest) =
  (Z.pos p, rest).
Proof.
  intros H. rewrite readDigits_uint, DecimalPos.Unsigned.of_to.
  now apply readDigits_stop.
Qed.

(** The digits of a positive number start with a digit. *)
Lemma string_of_uint_head u :
  u <> Decimal.Nil ->
  exists c s d, NilEmpty.string_of_uint u = String c s /\
                digitOf c = Some d /\ c <> "-"%char /\ c <> "+"%char /\
                isSpace c = false.
Proof.
  intros H. destruct u; [contradiction | ..];
    cbn [NilEmpty.string_of_uint]; do 3 eexists;
    (split; [reflexivity|]); (split; [reflexivity|]);
    repeat split; discriminate.
Qed.

End Stream.

Section RoundTrip.

(** The clock reading at load time. *)
Variable now : Z.

Lemma extractLong_unsigned c s :
  isSpace c = false -> c <> "-"%char -> c <> "+"%char ->
  extractLong (String c s) = readNumber false (String c s).
Proof.
  intros Hs Hm Hp. unfold extractLong. cbn [skipWs]. rewrite Hs.
  destruct c as [[|] [|] [|] [|] [|] [|] [|] [|]];
    try reflexivity; congruence.
Qed.

Lemma readNumber_pos (b : bool) p rest :
  stopsNumber rest = true ->
  in_time_t (if b then - Z.pos p else Z.pos p) = true ->
  readNumber b (NilEmpty.string_of_uint (Pos.to_uint p) ++ rest) =
  Some (if b then - Z.pos p else Z.pos p, rest).
Proof.
  intros Hstop Hr. unfold readNumber.
  rewrite (readDigits_pos p rest Hstop).
  destruct (string_of_uint_head (Pos.to_uint p)
              (DecimalPos.Unsigned.to_uint_nonnil p))
    as (c & s & d & -> & Hd & _).
  cbn [append]. rewrite Hd, Hr. reflexivity.
Qed.

Lemma extractLong_showLong z rest :
  in_time_t z = true -> stopsNumber rest = true ->
  extractLong (showLong z ++ rest) = Some (z, rest).
Proof.
  intros Hr Hstop. unfold showLong. destruct z as [|p|p]; cbn [Z.to_int].
  - cbn [NilEmpty.string_of_int NilEmpty.string_of_uint append].
    rewrite extractLong_unsigned by (reflexivity || discriminate).
    unfold readNumber. cbn [readDigits]. eval_digit.
    change (10 * 0 + 0) with 0. rewrite (readDigits_stop 0 rest Hstop).
    reflexivity.
  - cbn [NilEmpty.string_of_int].
    destruct (string_of_uint_head (Pos.to_uint p)
                (DecimalPos.Unsigned.to_uint_nonnil p))
      as (c & s & d & Hc & _ & Hm & Hp & Hs).
    pose proof (readNumber_pos false p rest Hstop Hr) as H.
    rewrite Hc in H |- *. cbn [append] in H |- *.
    now rewrite extractLong_unsigned.
  - cbn [NilEmpty.string_of_int append].
    unfold extractLong. cbn [skipWs].
    change (isSpace "-") with false. cbv iota.
    exact (readNumber_pos true p rest Hstop Hr).
Qed.

Lemma getType_word v : plateOk (getType v) = true.
Proof. unfold getType. destruct (vclass v); reflexivity. Qed.

Lemma loadOne_getType v parked :
  loadOne now (getType v) (getLicensePlate v) (getEntryTime v) parked =
  parked ++ [reload now v].
Proof.
  unfold loadOne, getType, reload. destruct (vclass v); reflexivity.
Qed.

(** The record of a storable vehicle is read back field by field; the
    stream is left at the end of the line. *)
Lemma readRecord_saveLine v rest :
  storable v = true ->
  readRecord (saveLine v ++ rest) =
  Some (getType v, getLicensePlate v, getEntryTime v,
        (newline ++ rest)%string).
Proof.
  unfold storable. intros H. apply andb_true_iff in H as [Hp Hr].
  unfold saveLine, readRecord. rewrite !append_assoc.
  cbn [append].
  rewrite (extractString_word (getType v) " " _ (getType_word v) eq_refl).
  rewrite extractString_skip by reflexivity.
  rewrite (extractString_word (getLicensePlate v) " " _ Hp eq_refl).
  rewrite extractLong_skip by reflexivity.
  unfold getEntryTime.
  rewrite (extractLong_showLong _ (newline ++ rest) Hr eq_refl). reflexivity.
Qed.

Lemma loadLoop_skip c s parked :
  isSpace c = true -> loadLoop now (String c s) parked = loadLoop now s parked.
Proof.
  intros Hc. rewrite (loadLoop_eq now (String c s)), (loadLoop_eq now s).
  now rewrite readRecord_skip.
Qed.

(** Reading what [saveData] wrote appends one vehicle per line, in
    order, and goes on with what follows in the stream. *)
Lemma loadLoop_saveLines l rest parked :
  forallb storable l = true ->
  loadLoop now (saveLines l ++ rest) parked =
  loadLoop now rest (parked ++ map (reload now) l).
Proof.
  revert parked. induction l as [|v l IH]; intros parked Hl.
  - simpl. now rewrite app_nil_r.
  - simpl in Hl. apply andb_true_iff in Hl as [Hv Hl].
    cbn [saveLines map]. rewrite append_assoc, loadLoop_eq.
    rewrite (readRecord_saveLine v _ Hv), loadOne_getType.
    unfold newline. cbn [append]. rewrite loadLoop_skip by reflexivity.
    rewrite (IH _ Hl), <- app_assoc. reflexivity.
Qed.

Lemma loadLoop_empty parked : loadLoop now EmptyString parked = parked.
Proof. now rewrite loadLoop_eq. Qed.

Lemma append_empty (s : string) : (s ++ EmptyString)%string = s.
Proof. induction s as [|c s IH]; simpl; [reflexivity | now rewrite IH]. Qed.

Lemma reload_same v : entryTime v <> 0 -> reload now v = v.
Proof.
  intros H. unfold reload, Vehicle_new. destruct v as [c p t]; simpl in *.
  apply Z.eqb_neq in H. now rewrite H.
Qed.

End RoundTrip.

(** C6, as stated, fails: a vehicle whose entry instant is 0 is written as
    [Car 34ABC12 0]; read back, the 0 is taken by the constructor for "no
    entry time given" and replaced by the clock. *)
Lemma C6_roundtrip_counterexample :
  forallb (fun v => plateOk (licensePlate v)) (parkedVehicles epochLot) = true
  /\ map triple
       (parkedVehicles
          (fst (ParkingLot_new 1700000000 (fst (saveData true None epochLot)))))
     <> map triple (parkedVehicles epochLot).
Proof. split; [reflexivity | vm_compute; discriminate]. Qed.

(** C6, amended. For every parked set whose plates are non-empty tokens
    without white space and whose entry instants are [time_t] values other
    than 0, saving and then loading gives back the same vehicles, hence
    the same (category, plate, entry instant) triples, in the same order.
    In general each vehicle comes back as [reload] makes it: with the load
    time for entry instant when the stored one is 0. *)
Theorem C6_save_load_roundtrip (now : Z) (file : option string)
    (lot : ParkingLot) :
  forallb storable (parkedVehicles lot) = true ->
  parkedVehicles (fst (ParkingLot_new now (fst (saveData true file lot)))) =
    map (reload now) (parkedVehicles lot)
  /\ (forallb (fun v => negb (entryTime v =? 0)) (parkedVehicles lot) = true ->
      parkedVehicles (fst (ParkingLot_new now (fst (saveData true file lot)))) =
        parkedVehicles lot
      /\ map triple
           (parkedVehicles
              (fst (ParkingLot_new now (fst (saveData true file lot))))) =
         map triple (parkedVehicles lot)).
Proof.
  intros Hs.
  assert (parkedVehicles
            (fst (ParkingLot_new now (fst (saveData true file lot)))) =
          map (reload now) (parkedVehicles lot)) as Hload.
  { cbn [saveData fst ParkingLot_new loadData parkedVehicles].
    rewrite <- (append_empty (saveLines (parkedVehicles lot))).
    rewrite (loadLoop_saveLines now _ EmptyString [] Hs), loadLoop_empty.
    reflexivity. }
  split; [exact Hload|]. intros Hz.
  assert (map (reload now) (parkedVehicles lot) = parkedVehicles lot) as Hid.
  { clear -Hz. induction (parkedVehicles lot) as [|v l IH]; [reflexivity|].
    simpl in Hz |- *. apply andb_true_iff in Hz as [Hv Hl].
    apply negb_true_iff, Z.eqb_neq in Hv.
    now rewrite (reload_same now v Hv), (IH Hl). }
  rewrite Hload, Hid. split; reflexivity.
Qed.

Lemma C6_save_load_roundtrip_witness :
  parkedVehicles (fst (ParkingLot_new 9200 (fst (saveData true None twinLot)))) =
    parkedVehicles twinLot
  /\ map triple
       (parkedVehicles
          (fst (ParkingLot_new 9200 (fst (saveData true None twinLot))))) =
     map triple (parkedVehicles twinLot).
Proof.
  destruct (C6_save_load_roundtrip 9200 None twinLot) as [_ H];
    [reflexivity|].
  apply H. reflexivity.
Defined.

Section Malformed.

(** After a plate, the stream holds the next line where the loop
    expects a number. *)
Lemma extractLong_saveLines l :
  extractLong (newline ++ saveLines l) = None.
Proof.
  unfold newline. cbn [append]. rewrite extractLong_skip by reflexivity.
  destruct l as [|v l]; [reflexivity|].
  cbn [saveLines]. unfold saveLine, getType.
  destruct (vclass v); reflexivity.
Qed.

Lemma readRecord_missing_timestamp type plate l :
  plateOk type = true -> plateOk plate = true ->
  readRecord (type ++ " " ++ plate ++ newline ++ saveLines l) = None.
Proof.
  intros Ht Hp. unfold readRecord. cbn [append].
  rewrite (extractString_word type " " _ Ht eq_refl).
  rewrite extractString_skip by reflexivity.
  unfold newline at 1. cbn [append].
  rewrite (extractString_word plate (ascii_of_nat 10) _ Hp eq_refl).
  change (String (ascii_of_nat 10) (saveLines l))
    with (newline ++ saveLines l)%string.
  now rewrite extractLong_saveLines.
Qed.

End Malformed.

(** When the line without its timestamp is followed by records as
    [saveData] writes them, or by nothing, the loop ends at that line:
    the records before it are loaded, no later one is. *)
Lemma load_stops_at_missing_timestamp (now : Z)
    (before after : list Vehicle) (type plate : string) :
  forallb storable before = true ->
  plateOk type = true -> plateOk plate = true ->
  parkedVehicles
    (fst (ParkingLot_new now
            (Some (saveLines before ++ (type ++ " " ++ plate ++ newline)
                     ++ saveLines after)%string))) =
  map (reload now) before.
Proof.
  intros Hb Ht Hp. cbn [ParkingLot_new loadData fst parkedVehicles].
  rewrite (loadLoop_saveLines now before _ [] Hb), loadLoop_eq.
  rewrite !append_assoc.
  now rewrite (readRecord_missing_timestamp type plate after Ht Hp).
Qed.

(** C7 does not hold of [loadData].  Its comment says that the file is
    read line by line, but the loop reads three tokens at a time wherever
    the lines end.  A line without its timestamp is not skipped: the loop
    takes the first token of the next line for the timestamp.  When that
    token is not a number the loop ends and the well-formed records after
    the line are lost ([brokenFile]: only [Car A 100] is loaded, not
    [Motorbike C 300]); when it starts with digits the line is loaded
    with them as its entry time ([shiftedFile]: [Truck B] is loaded with
    entry time 4). *)
Theorem C7_malformed_line_not_skipped :
  map triple (parkedVehicles (fst (ParkingLot_new 5000 (Some brokenFile)))) =
    [(Car, "A"%string, 100)]
  /\ ~ In (Motorbike, "C"%string, 300)
        (map triple
           (parkedVehicles (fst (ParkingLot_new 5000 (Some brokenFile)))))
  /\ map triple (parkedVehicles (fst (ParkingLot_new 5000 (Some shiftedFile)))) =
     [(Car, "A"%string, 100); (Truck, "B"%string, 4);
      (Motorbike, "D"%string, 400)].
Proof.
  split; [reflexivity|]. split; [|reflexivity].
  vm_compute. intros [H|[]]. discriminate.
Qed.



(** C3 does not hold of [loadData]: it appends every record of the store
    without the test on [capacity] that [parkVehicle] makes, so a store
    of eight records gives a lot of eight vehicles. *)
Theorem C3_load_exceeds_capacity :
  size (parkedVehicles (fst (ParkingLot_new 1700003600 (Some eightRecords)))) = 8
  /\ capacity = 7.
Proof. split; reflexivity. Qed.


(** * Sessions: what a run of commands does to the lot *)

Section Sessions.

Lemma session_run cmds lot : fst (session cmds lot) = run cmds lot.
Proof.
  revert lot. induction cmds as [|[now cmd] cmds IH]; intros lot; simpl.
  - reflexivity.
  - destruct (step now cmd lot) as [lot1 out1]. simpl.
    specialize (IH lot1). destruct (session cmds lot1) as [lot2 out2].
    exact IH.
Qed.

Lemma feesOf_app out1 out2 : feesOf (out1 ++ out2) = feesOf out1 ++ feesOf out2.
Proof. unfold feesOf. apply flat_map_app. Qed.

Lemma calculateFee_pos now v : (0 < calculateFee now v)%Q.
Proof.
  unfold calculateFee.
  destruct (Qltb (elapsedHours now (entryTime v)) 1) eqn:E.
  - rewrite Qmult_1_l. apply hourlyRate_pos.
  - apply Qltb_ge in E.
    apply Qmult_lt_0_compat; [|apply hourlyRate_pos].
    apply Qlt_le_trans with 1%Q; [reflexivity | exact E].
Qed.

(** One command: the fee of a release, if any, is added to the revenue. *)
Lemma step_revenue now cmd lot :
  totalRevenue (fst (step now cmd lot)) =
  fold_left Qplus (feesOf (snd (step now cmd lot))) (totalRevenue lot).
Proof.
  destruct cmd as [c plate|plate| | |]; simpl; try reflexivity.
  - unfold parkVehicle.
    destruct (size (parkedVehicles lot) >=? capacity); reflexivity.
  - unfold unparkVehicle.
    destruct (unparkScan plate (parkedVehicles lot)) as [[v rest]|];
      reflexivity.
Qed.

(** One command: the occupancy changes by the vehicles parked less the
    receipts. *)
Lemma step_occupancy now cmd lot :
  size (parkedVehicles (fst (step now cmd lot))) =
  size (parkedVehicles lot)
  + Z.of_nat (List.length (filter isParkedMsg (snd (step now cmd lot))))
  - Z.of_nat (List.length (filter isReceiptMsg (snd (step now cmd lot)))).
Proof.
  destruct cmd as [c plate|plate| | |]; simpl; try lia.
  - unfold parkVehicle.
    destruct (size (parkedVehicles lot) >=? capacity); simpl; [lia|].
    unfold size. rewrite length_app. simpl. lia.
  - unfold unparkVehicle.
    destruct (unparkScan plate (parkedVehicles lot)) as [[v rest]|] eqn:E;
      simpl; [|lia].
    apply unparkScan_found in E as (front & back & -> & -> & _).
    unfold size. rewrite !length_app. simpl. lia.
Qed.

Lemma step_size_max now cmd lot :
  size (parkedVehicles (fst (step now cmd lot))) <=
  Z.max (size (parkedVehicles lot)) capacity.
Proof.
  destruct cmd as [c plate|plate| | |]; simpl; try lia.
  - unfold parkVehicle.
    destruct (size (parkedVehicles lot) >=? capacity) eqn:E; simpl; [lia|].
    unfold size in *. rewrite length_app. simpl. lia.
  - unfold unparkVehicle.
    destruct (unparkScan plate (parkedVehicles lot)) as [[v rest]|] eqn:E;
      simpl; [|lia].
    apply unparkScan_found in E as (front & back & -> & -> & _).
    unfold size. rewrite !length_app. simpl. lia.
Qed.

End Sessions.

(** X1. Over any session the revenue at the end is the revenue at the
    start with the fee of each release that found its plate added to it,
    one after the other in the order of the receipts; nothing else
    changes the revenue.  The fees are the amounts computed, not the
    digits printed on the receipts. *)
Theorem session_revenue_adds_fees (cmds : list (Z * Command))
    (lot : ParkingLot) :
  totalRevenue (fst (session cmds lot)) =
  fold_left Qplus (feesOf (snd (session cmds lot))) (totalRevenue lot).
Proof.
  revert lot. induction cmds as [|[now cmd] cmds IH]; intros lot; simpl.
  - reflexivity.
  - pose proof (step_revenue now cmd lot) as Hs.
    destruct (step now cmd lot) as [lot1 out1]. simpl in Hs.
    specialize (IH lot1). destruct (session cmds lot1) as [lot2 out2].
    simpl in IH |- *.
    now rewrite feesOf_app, fold_left_app, <- Hs.
Qed.

(** X2. Over any session the occupancy at the end is the occupancy at the
    start, plus the number of "parked successfully" messages, minus the
    number of receipts. *)
Theorem session_occupancy_is_log (cmds : list (Z * Command))
    (lot : ParkingLot) :
  size (parkedVehicles (fst (session cmds lot))) =
  size (parkedVehicles lot)
  + Z.of_nat (List.length (filter isParkedMsg (snd (session cmds lot))))
  - Z.of_nat (List.length (filter isReceiptMsg (snd (session cmds lot)))).
Proof.
  revert lot. induction cmds as [|[now cmd] cmds IH]; intros lot; simpl.
  - lia.
  - pose proof (step_occupancy now cmd lot) as Hs.
    destruct (step now cmd lot) as [lot1 out1]. simpl in Hs.
    specialize (IH lot1). destruct (session cmds lot1) as [lot2 out2].
    simpl in IH |- *.
    rewrite !filter_app, !length_app. lia.
Qed.

(** X3. No session makes the lot larger than the larger of its size at
    the start and the capacity: a lot loaded over capacity never grows. *)
Theorem run_size_max (cmds : list (Z * Command)) (lot : ParkingLot) :
  size (parkedVehicles (run cmds lot)) <=
  Z.max (size (parkedVehicles lot)) capacity.
Proof.
  revert lot. induction cmds as [|[now cmd] cmds IH]; intros lot; simpl.
  - lia.
  - specialize (IH (fst (step now cmd lot))).
    pose proof (step_size_max now cmd lot). lia.
Qed.

(** X4. The revenue never decreases over a session, whatever the clock
    readings are. *)
Theorem run_revenue_monotone (cmds : list (Z * Command)) (lot : ParkingLot) :
  (totalRevenue lot <= totalRevenue (run cmds lot))%Q.
Proof.
  revert lot. induction cmds as [|[now cmd] cmds IH]; intros lot; simpl.
  - apply Qle_refl.
  - eapply Qle_trans; [|apply IH].
    destruct cmd as [c plate|plate| | |]; simpl; try apply Qle_refl.
    + unfold parkVehicle.
      destruct (size (parkedVehicles lot) >=? capacity); apply Qle_refl.
    + unfold unparkVehicle.
      destruct (unparkScan plate (parkedVehicles lot)) as [[v rest]|]; simpl;
        [|apply Qle_refl].
      rewrite <- (Qplus_0_r (totalRevenue lot)) at 1.
      apply Qplus_le_r, Qlt_le_weak, calculateFee_pos.
Qed.

(** X5. Releasing a plate never touches the vehicles with other plates:
    they are the same, in the same order, before and after, whether the
    plate was found or not. *)
Theorem unparkVehicle_keeps_others (now : Z) (plate : string)
    (lot : ParkingLot) :
  filter (fun w => negb (String.eqb (getLicensePlate w) plate))
         (parkedVehicles (fst (unparkVehicle now plate lot))) =
  filter (fun w => negb (String.eqb (getLicensePlate w) plate))
         (parkedVehicles lot).
Proof.
  unfold unparkVehicle.
  destruct (unparkScan plate (parkedVehicles lot)) as [[v rest]|] eqn:E;
    [|reflexivity].
  apply unparkScan_found in E as (front & back & -> & -> & Hp & _).
  simpl. rewrite !filter_app. simpl.
  apply String.eqb_eq in Hp. now rewrite Hp.
Qed.

(** X6. Parking a vehicle from the console into a lot that has room and
    no vehicle with its plate, and releasing that plate later, gives back
    the vector as it was; the revenue has grown by the fee, which is
    exactly the hourly rate when less than an hour has passed. *)
Theorem park_then_unpark (c : VehicleClass) (plate : string) (t1 t2 : Z)
    (lot : ParkingLot) :
  size (parkedVehicles lot) < capacity ->
  (forall w, In w (parkedVehicles lot) -> getLicensePlate w <> plate) ->
  let lot2 := run [(t1, CmdPark c plate); (t2, CmdUnpark plate)] lot in
  parkedVehicles lot2 = parkedVehicles lot
  /\ totalRevenue lot2 =
     (totalRevenue lot + calculateFee t2 (mkVehicle c plate t1))%Q
  /\ (t2 - t1 < 3600 -> (totalRevenue lot2 == totalRevenue lot + hourlyRate c)%Q).
Proof.
  intros Hroom Habs. cbn [run step fst].
  change (Vehicle_new c plate 0 t1) with (mkVehicle c plate t1).
  assert (fst (parkVehicle (mkVehicle c plate t1) lot) =
          mkLot (parkedVehicles lot ++ [mkVehicle c plate t1])
                (totalRevenue lot)) as Hpark.
  { unfold parkVehicle.
    destruct (size (parkedVehicles lot) >=? capacity) eqn:E;
      [lia | reflexivity]. }
  assert (unparkScan plate (parkedVehicles lot ++ [mkVehicle c plate t1]) =
          Some (mkVehicle c plate t1, parkedVehicles lot)) as Hscan.
  { clear -Habs. induction (parkedVehicles lot) as [|a l IH]; simpl.
    - now rewrite String.eqb_refl.
    - destruct (String.eqb (getLicensePlate a) plate) eqn:E.
      + apply String.eqb_eq in E. exfalso. apply (Habs a); simpl; auto.
      + rewrite IH; [reflexivity|]. intros w Hw. apply Habs. now right. }
  unfold unparkVehicle. rewrite Hpark. cbn [parkedVehicles totalRevenue].
  rewrite Hscan. cbn [fst parkedVehicles totalRevenue].
  split; [reflexivity|]. split; [reflexivity|].
  intros Hshort.
  rewrite (calculateFee_short t2 (mkVehicle c plate t1)) by exact Hshort.
  simpl. now rewrite Qmult_1_l.
Qed.

Lemma park_then_unpark_witness :
  let lot2 := run [(5000, CmdPark Car "D4"); (6000, CmdUnpark "D4")] twinLot in
  parkedVehicles lot2 = parkedVehicles twinLot
  /\ totalRevenue lot2 =
     (totalRevenue twinLot + calculateFee 6000 (mkVehicle Car "D4" 5000))%Q
  /\ (totalRevenue lot2 == totalRevenue twinLot + hourlyRate Car)%Q.
Proof.
  destruct (park_then_unpark Car "D4" 5000 6000 twinLot) as (H1 & H2 & H3).
  - reflexivity.
  - simpl. intros w [<-|[<-|[<-|[<-|[]]]]]; discriminate.
  - split; [exact H1|]. split; [exact H2|]. apply H3. lia.
Defined.

(** * Loading: any layout, unknown types, numbers out of range *)

Section Layout.

Lemma isSpace_not_digit c : isSpace c = true -> digitOf c = None.
Proof.
  intros H. destruct c as [[|] [|] [|] [|] [|] [|] [|] [|]];
    first [reflexivity | vm_compute in H; discriminate H].
Qed.

Lemma isGap_head g :
  isGap g = true ->
  exists c g', g = String c g' /\ isSpace c = true /\ allSpace g' = true.
Proof.
  unfold isGap. destruct g as [|c g']; [discriminate|]. simpl.
  intros H. apply andb_true_iff in H as [Hc Hg]. eauto.
Qed.

Lemma isGap_stops g rest : isGap g = true -> stopsNumber (g ++ rest) = true.
Proof.
  intros H. apply isGap_head in H as (c & g' & -> & Hc & _).
  simpl. now rewrite (isSpace_not_digit c Hc).
Qed.

Lemma extractString_allSpace g s :
  allSpace g = true -> extractString (g ++ s) = extractString s.
Proof.
  induction g as [|c g IH]; simpl; intros H; [reflexivity|].
  apply andb_true_iff in H as [Hc Hg].
  rewrite extractString_skip by exact Hc. auto.
Qed.

Lemma extractLong_allSpace g s :
  allSpace g = true -> extractLong (g ++ s) = extractLong s.
Proof.
  induction g as [|c g IH]; simpl; intros H; [reflexivity|].
  apply andb_true_iff in H as [Hc Hg].
  rewrite extractLong_skip by exact Hc. auto.
Qed.

Lemma extractString_field w g rest :
  plateOk w = true -> isGap g = true ->
  extractString (w ++ g ++ rest) = Some (w, (g ++ rest)%string).
Proof.
  intros Hw Hg. apply isGap_head in Hg as (c & g' & -> & Hc & _).
  simpl. now apply extractString_word.
Qed.

(** A number is read back when it is a [time_t]; otherwise the
    extraction fails. *)
Lemma readNumber_digits (b : bool) p rest :
  stopsNumber rest = true ->
  readNumber b (NilEmpty.string_of_uint (Pos.to_uint p) ++ rest) =
  if in_time_t (if b then - Z.pos p else Z.pos p)
  then Some (if b then - Z.pos p else Z.pos p, rest) else None.
Proof.
  intros Hstop. unfold readNumber.
  rewrite (readDigits_pos p rest Hstop).
  destruct (string_of_uint_head (Pos.to_uint p)
              (DecimalPos.Unsigned.to_uint_nonnil p))
    as (c & s & d & -> & Hd & _).
  cbn [append]. now rewrite Hd.
Qed.

Lemma extractLong_digits z rest :
  stopsNumber rest = true ->
  extractLong (showLong z ++ rest) =
  if in_time_t z then Some (z, rest) else None.
Proof.
  intros Hstop. destruct (in_time_t z) eqn:Hr.
  - now apply extractLong_showLong.
  - unfold showLong. destruct z as [|p|p]; cbn [Z.to_int]; [discriminate|..].
    + cbn [NilEmpty.string_of_int].
      destruct (string_of_uint_head (Pos.to_uint p)
                  (DecimalPos.Unsigned.to_uint_nonnil p))
        as (c & s & d & Hc & _ & Hm & Hp & Hs).
      pose proof (readNumber_digits false p rest Hstop) as H.
      cbv iota in H. rewrite Hr in H.
      rewrite Hc in H |- *. cbn [append] in H |- *.
      now rewrite extractLong_unsigned.
    + cbn [NilEmpty.string_of_int append].
      unfold extractLong. cbn [skipWs].
      change (isSpace "-") with false. cbv iota.
      pose proof (readNumber_digits true p rest Hstop) as H.
      cbv iota in H. change (- Z.pos p) with (Z.neg p) in H.
      now rewrite Hr in H.
Qed.

(** The loop condition on a record with any gaps. *)
Lemma readRecord_fields type plate t g1 g2 g3 rest :
  plateOk type = true -> plateOk plate = true ->
  isGap g1 = true -> isGap g2 = true -> isGap g3 = true ->
  readRecord (recordText type plate t g1 g2 g3 ++ rest) =
  if in_time_t t then Some (type, plate, t, (g3 ++ rest)%string) else None.
Proof.
  intros Ht Hp H1 H2 H3. unfold recordText, readRecord.
  rewrite !append_assoc.
  rewrite (extractString_field type g1 _ Ht H1).
  apply isGap_head in H1 as (c1 & g1' & -> & Hc1 & Hg1).
  cbn [append]. rewrite extractString_skip by exact Hc1.
  rewrite (extractString_allSpace g1' _ Hg1).
  rewrite (extractString_field plate g2 _ Hp H2).
  apply isGap_head in H2 as (c2 & g2' & -> & Hc2 & Hg2).
  cbn [append]. rewrite extractLong_skip by exact Hc2.
  rewrite (extractLong_allSpace g2' _ Hg2).
  rewrite (extractLong_digits t (g3 ++ rest) (isGap_stops g3 rest H3)).
  now destruct (in_time_t t).
Qed.

Lemma loadLoop_allSpace now g s parked :
  allSpace g = true -> loadLoop now (g ++ s) parked = loadLoop now s parked.
Proof.
  induction g as [|c g IH]; simpl; intros H; [reflexivity|].
  apply andb_true_iff in H as [Hc Hg].
  rewrite loadLoop_skip by exact Hc. auto.
Qed.

Lemma isGap_allSpace g : isGap g = true -> allSpace g = true.
Proof. unfold isGap. intros H. now apply andb_true_iff in H as [_ H]. Qed.

Lemma loadLoop_recordsText now l rest parked :
  forallb layoutOk l = true ->
  loadLoop now (recordsText l ++ rest) parked =
  loadLoop now rest (parked ++ map (fun x => reload now (fst x)) l).
Proof.
  revert parked. induction l as [|[v [[g1 g2] g3]] l IH]; intros parked Hl.
  - simpl. now rewrite app_nil_r.
  - simpl in Hl. apply andb_true_iff in Hl as [Hv Hl].
    apply andb_true_iff in Hv as [Hv H3].
    apply andb_true_iff in Hv as [Hv H2].
    apply andb_true_iff in Hv as [Hv H1].
    pose proof Hv as Hs. unfold storable in Hs.
    apply andb_true_iff in Hs as [Hp Hr].
    cbn [recordsText map fst]. rewrite append_assoc, loadLoop_eq.
    rewrite (readRecord_fields _ _ _ g1 g2 g3 _ (getType_word v) Hp H1 H2 H3).
    unfold getEntryTime at 1. rewrite Hr, loadOne_getType.
    rewrite (loadLoop_allSpace now g3 _ _ (isGap_allSpace g3 H3)).
    rewrite (IH _ Hl), <- app_assoc. reflexivity.
Qed.

Lemma loadOne_unknown now type plate t parked :
  unknownType type = true -> loadOne now type plate t parked = parked.
Proof.
  unfold unknownType, loadOne. intros H.
  apply andb_true_iff in H as [H Hm]. apply andb_true_iff in H as [Hc Ht].
  apply negb_true_iff in Hc, Ht, Hm. now rewrite Hc, Ht, Hm.
Qed.

Lemma loadOne_app now type plate t parked :
  loadOne now type plate t parked = parked ++ loadOne now type plate t [].
Proof.
  unfold loadOne.
  destruct (String.eqb type "Car"); [reflexivity|].
  destruct (String.eqb type "Truck"); [reflexivity|].
  destruct (String.eqb type "Motorbike"); [reflexivity|].
  now rewrite app_nil_r.
Qed.

Lemma loadLoopFuel_app fuel now s parked :
  loadLoopFuel fuel now s parked = parked ++ loadLoopFuel fuel now s [].
Proof.
  revert s parked. induction fuel as [|fuel IH]; intros s parked; simpl.
  - now rewrite app_nil_r.
  - destruct (readRecord s) as [[[[type plate] t] rest]|];
      [|now rewrite app_nil_r].
    rewrite (IH rest (loadOne now type plate t parked)).
    rewrite (IH rest (loadOne now type plate t [])).
    rewrite (loadOne_app now type plate t parked). symmetry. apply app_assoc.
Qed.

End Layout.

(** X7. [loadData] reads fields, not lines: records whose fields are
    separated and followed by any non-empty white space (spaces, tabs,
    line breaks, several of them) load as the records [saveData] writes. *)
Theorem load_any_layout (now : Z)
    (l : list (Vehicle * (string * string * string))) :
  forallb layoutOk l = true ->
  parkedVehicles (fst (ParkingLot_new now (Some (recordsText l)))) =
  map (fun x => reload now (fst x)) l.
Proof.
  intros Hl. cbn [ParkingLot_new loadData fst parkedVehicles].
  rewrite <- (append_empty (recordsText l)).
  now rewrite (loadLoop_recordsText now l EmptyString [] Hl), loadLoop_empty.
Qed.

Lemma load_any_layout_witness :
  parkedVehicles (fst (ParkingLot_new 1700003600 (Some (recordsText looseRecords))))
  = map (fun x => reload 1700003600 (fst x)) looseRecords.
Proof. apply (load_any_layout 1700003600 looseRecords). reflexivity. Defined.

(** X8. A record whose type name is none of Car, Truck and Motorbike
    (the comparison is exact, so "car" is one) is dropped without a
    message; the records before and after it are loaded. *)
Theorem load_skips_unknown_type (now : Z) (before after : list Vehicle)
    (type plate : string) (t : Z) :
  forallb storable before = true -> forallb storable after = true ->
  plateOk type = true -> unknownType type = true ->
  plateOk plate = true -> in_time_t t = true ->
  ParkingLot_new now
    (Some (saveLines before ++ recordText type plate t " " " " newline
             ++ saveLines after)%string) =
  ({| parkedVehicles := map (reload now) (before ++ after);
      totalRevenue := 0 |}, [MsgLoaded]).
Proof.
  intros Hb Ha Ht Hu Hp Hr. unfold ParkingLot_new, loadData. f_equal. f_equal.
  cbn [parkedVehicles].
  rewrite (loadLoop_saveLines now before _ [] Hb), loadLoop_eq.
  rewrite (readRecord_fields type plate t " " " " newline _ Ht Hp
             eq_refl eq_refl eq_refl), Hr.
  rewrite (loadOne_unknown now type plate t _ Hu).
  unfold newline. cbn [append]. rewrite loadLoop_skip by reflexivity.
  rewrite <- (append_empty (saveLines after)).
  rewrite (loadLoop_saveLines now after EmptyString _ Ha), loadLoop_empty.
  now rewrite map_app.
Qed.

Lemma load_skips_unknown_type_witness :
  ParkingLot_new 5000
    (Some (saveLines [mkVehicle Car "A" 100]
             ++ recordText "car" "B" 200 " " " " newline
             ++ saveLines [mkVehicle Motorbike "C" 300])%string) =
  ({| parkedVehicles :=
        map (reload 5000) ([mkVehicle Car "A" 100] ++ [mkVehicle Motorbike "C" 300]);
      totalRevenue := 0 |}, [MsgLoaded]).
Proof.
  apply (load_skips_unknown_type 5000 [mkVehicle Car "A" 100]
           [mkVehicle Motorbike "C" 300] "car" "B" 200); reflexivity.
Defined.

(** X9. A record whose timestamp does not fit a [time_t] ends the
    loading like a missing one: the records before it are loaded, the
    record itself and those after it are not. *)
Theorem load_stops_at_overflow (now : Z) (before after : list Vehicle)
    (type plate : string) (t : Z) :
  forallb storable before = true ->
  plateOk type = true -> plateOk plate = true -> in_time_t t = false ->
  parkedVehicles
    (fst (ParkingLot_new now
            (Some (saveLines before ++ recordText type plate t " " " " newline
                     ++ saveLines after)%string))) =
  map (reload now) before.
Proof.
  intros Hb Ht Hp Hr. cbn [ParkingLot_new loadData fst parkedVehicles].
  rewrite (loadLoop_saveLines now before _ [] Hb), loadLoop_eq.
  now rewrite (readRecord_fields type plate t " " " " newline _ Ht Hp
                 eq_refl eq_refl eq_refl), Hr.
Qed.

Lemma load_stops_at_overflow_witness :
  parkedVehicles
    (fst (ParkingLot_new 5000
            (Some (saveLines [mkVehicle Car "A" 100]
                     ++ recordText "Truck" "B" (2 ^ 63) " " " " newline
                     ++ saveLines [mkVehicle Motorbike "C" 300])%string))) =
  map (reload 5000) [mkVehicle Car "A" 100].
Proof.
  apply (load_stops_at_overflow 5000 [mkVehicle Car "A" 100]
           [mkVehicle Motorbike "C" 300] "Truck" "B" (2 ^ 63)); reflexivity.
Defined.

(** X10. [loadData] only appends: the vehicles already in the vector stay
    in front, in order, followed by what the same file adds to an empty
    vector. *)
Theorem loadLoop_appends (now : Z) (s : string) (parked : list Vehicle) :
  loadLoop now s parked = parked ++ loadLoop now s [].
Proof. unfold loadLoop. apply loadLoopFuel_app. Qed.

(** * What a file can bring into the lot, and what survives a restart *)

Section Restart.

Lemma skipWs_head s c s' : skipWs s = String c s' -> isSpace c = false.
Proof.
  induction s as [|d s IH]; simpl; [discriminate|].
  destruct (isSpace d) eqn:Hd; [exact IH|]. now intros [= <- _].
Qed.

Lemma takeWord_noSpace s w rest : takeWord s = (w, rest) -> noSpace w = true.
Proof.
  revert w rest. induction s as [|c s IH]; simpl; intros w rest H.
  - now injection H as <- _.
  - destruct (isSpace c) eqn:Hc.
    + now injection H as <- _.
    + destruct (takeWord s) as [w' r'] eqn:E. injection H as <- _.
      simpl. rewrite Hc. simpl. exact (IH _ _ eq_refl).
Qed.

(** What [cin >> plate] and [inFile >> plate] deliver is a token. *)
Lemma extractString_plateOk s w rest :
  extractString s = Some (w, rest) -> plateOk w = true.
Proof.
  unfold extractString. destruct (skipWs s) as [|c s'] eqn:E; [discriminate|].
  intros [= H]. pose proof (takeWord_noSpace (String c s') _ _ H) as Hn.
  apply skipWs_head in E. simpl in H. rewrite E in H.
  destruct (takeWord s') as [w' r']. injection H as <- _.
  unfold plateOk. now rewrite Hn.
Qed.

Lemma readNumber_range b s z rest :
  readNumber b s = Some (z, rest) -> in_time_t z = true.
Proof.
  unfold readNumber. destruct s as [|c s]; [discriminate|].
  destruct (digitOf c); [|discriminate].
  destruct (readDigits 0 (String c s)) as [n r].
  destruct (in_time_t (if b then - n else n)) eqn:E; [|discriminate].
  now intros [= <- _].
Qed.

Lemma extractLong_range s z rest :
  extractLong s = Some (z, rest) -> in_time_t z = true.
Proof.
  unfold extractLong. destruct (skipWs s) as [|c s'].
  - apply readNumber_range.
  - destruct c as [[|] [|] [|] [|] [|] [|] [|] [|]]; apply readNumber_range.
Qed.

Lemma readRecord_fields_ok s type plate t rest :
  readRecord s = Some (type, plate, t, rest) ->
  plateOk plate = true /\ in_time_t t = true.
Proof.
  unfold readRecord.
  destruct (extractString s) as [[ty s1]|]; [|discriminate].
  destruct (extractString s1) as [[pl s2]|] eqn:E2; [|discriminate].
  destruct (extractLong s2) as [[z s3]|] eqn:E3; [|discriminate].
  intros [= _ <- <- _]. split.
  - exact (extractString_plateOk _ _ _ E2).
  - exact (extractLong_range _ _ _ E3).
Qed.

(** The clock reading of the run: a [time_t]. *)
Variable now : Z.
Hypothesis now_range : in_time_t now = true.

Lemma Vehicle_new_storable c plate t :
  plateOk plate = true -> in_time_t t = true ->
  storable (Vehicle_new c plate t now) = true.
Proof.
  intros Hp Ht. unfold storable, Vehicle_new. simpl. rewrite Hp. simpl.
  now destruct (t =? 0).
Qed.

Lemma Vehicle_new_persistable c plate t :
  now <> 0 -> plateOk plate = true -> in_time_t t = true ->
  persistable (Vehicle_new c plate t now) = true.
Proof.
  intros Hn Hp Ht. unfold persistable.
  rewrite (Vehicle_new_storable c plate t Hp Ht). simpl.
  destruct (t =? 0) eqn:E; apply negb_true_iff, Z.eqb_neq.
  - exact Hn.
  - now apply Z.eqb_neq.
Qed.

Lemma loadOne_forallb (P : Vehicle -> bool) type plate t parked :
  (forall c, P (Vehicle_new c plate t now) = true) ->
  forallb P parked = true ->
  forallb P (loadOne now type plate t parked) = true.
Proof.
  intros Hnew Hp. unfold loadOne.
  destruct (String.eqb type "Car");
    [rewrite forallb_app, Hp; simpl; now rewrite Hnew|].
  destruct (String.eqb type "Truck");
    [rewrite forallb_app, Hp; simpl; now rewrite Hnew|].
  destruct (String.eqb type "Motorbike");
    [rewrite forallb_app, Hp; simpl; now rewrite Hnew|].
  exact Hp.
Qed.

Lemma loadLoop_forallb (P : Vehicle -> bool) s parked :
  (forall c plate t, plateOk plate = true -> in_time_t t = true ->
                     P (Vehicle_new c plate t now) = true) ->
  forallb P parked = true ->
  forallb P (loadLoop now s parked) = true.
Proof.
  intros Hnew. unfold loadLoop. generalize (String.length s) as fuel.
  intros fuel. revert s parked.
  induction fuel as [|fuel IH]; intros s parked Hp; simpl; [exact Hp|].
  destruct (readRecord s) as [[[[type plate] t] rest]|] eqn:E; [|exact Hp].
  apply readRecord_fields_ok in E as [Hpl Ht].
  apply IH, loadOne_forallb; auto.
Qed.

End Restart.

Section Survival.

Lemma persistable_storable l :
  forallb persistable l = true -> forallb storable l = true.
Proof.
  induction l as [|v l IH]; simpl; [reflexivity|].
  intros H. apply andb_true_iff in H as [Hv Hl].
  unfold persistable in Hv. apply andb_true_iff in Hv as [Hs _].
  now rewrite Hs, IH.
Qed.

Lemma persistable_reload now l :
  forallb persistable l = true -> map (reload now) l = l.
Proof.
  induction l as [|v l IH]; simpl; [reflexivity|].
  intros H. apply andb_true_iff in H as [Hv Hl].
  unfold persistable in Hv. apply andb_true_iff in Hv as [_ Hz].
  apply negb_true_iff, Z.eqb_neq in Hz.
  now rewrite (reload_same now v Hz), IH.
Qed.

Lemma step_persistable now cmd lot :
  commandOk (now, cmd) = true ->
  forallb persistable (parkedVehicles lot) = true ->
  forallb persistable (parkedVehicles (fst (step now cmd lot))) = true.
Proof.
  intros Hc Hl. unfold commandOk in Hc.
  apply andb_true_iff in Hc as [Hc Hcmd]. apply andb_true_iff in Hc as [Hr Hz].
  apply negb_true_iff, Z.eqb_neq in Hz.
  destruct cmd as [c plate|plate| | |]; simpl; auto.
  - unfold parkVehicle.
    destruct (size (parkedVehicles lot) >=? capacity); simpl; [exact Hl|].
    rewrite forallb_app, Hl. simpl.
    now rewrite (Vehicle_new_persistable now Hr c plate 0 Hz Hcmd eq_refl).
  - unfold unparkVehicle.
    destruct (unparkScan plate (parkedVehicles lot)) as [[v rest]|] eqn:E;
      simpl; [|exact Hl].
    apply unparkScan_found in E as (front & back & Hf & -> & _).
    rewrite Hf in Hl. rewrite forallb_app in Hl |- *. simpl in Hl.
    apply andb_true_iff in Hl as [H1 H2]. apply andb_true_iff in H2 as [_ H2].
    now rewrite H1, H2.
Qed.

Lemma run_persistable cmds lot :
  forallb commandOk cmds = true ->
  forallb persistable (parkedVehicles lot) = true ->
  forallb persistable (parkedVehicles (run cmds lot)) = true.
Proof.
  revert lot. induction cmds as [|[now cmd] cmds IH]; intros lot Hc Hl.
  - exact Hl.
  - cbn [forallb] in Hc. apply andb_true_iff in Hc as [Hc Hcs].
    cbn [run]. apply IH; [exact Hcs|]. now apply step_persistable.
Qed.

Lemma ParkingLot_new_forallb (P : Vehicle -> bool) now file :
  in_time_t now = true ->
  (forall c plate t, plateOk plate = true -> in_time_t t = true ->
                     P (Vehicle_new c plate t now) = true) ->
  forallb P (parkedVehicles (fst (ParkingLot_new now file))) = true.
Proof.
  intros Hr Hnew.
  destruct file as [s|]; cbn [ParkingLot_new loadData fst parkedVehicles];
    [|reflexivity].
  now apply loadLoop_forallb.
Qed.

Lemma ParkingLot_new_persistable now file :
  in_time_t now = true -> now <> 0 ->
  forallb persistable (parkedVehicles (fst (ParkingLot_new now file))) = true.
Proof.
  intros Hr Hz. apply ParkingLot_new_forallb; [exact Hr|].
  intros c plate t. now apply Vehicle_new_persistable.
Qed.

End Survival.

(** X11. Whatever the file holds, every vehicle that [loadData] puts in
    the lot has a non-empty plate without white space and an entry time
    that is a [time_t]; when the clock does not read 0 no entry time is
    0. *)
Theorem load_gives_storable (now : Z) (file : option string) :
  in_time_t now = true ->
  forallb storable (parkedVehicles (fst (ParkingLot_new now file))) = true
  /\ (now <> 0 ->
      forallb persistable (parkedVehicles (fst (ParkingLot_new now file)))
      = true).
Proof.
  intros Hr. split.
  - apply ParkingLot_new_forallb; [exact Hr|].
    intros c plate t. now apply Vehicle_new_storable.
  - intros Hz. now apply ParkingLot_new_persistable.
Qed.

Lemma load_gives_storable_witness :
  forallb storable (parkedVehicles (fst (ParkingLot_new 5000 (Some brokenFile))))
  = true
  /\ forallb persistable
       (parkedVehicles (fst (ParkingLot_new 5000 (Some brokenFile)))) = true.
Proof.
  destruct (load_gives_storable 5000 (Some brokenFile)) as [H1 H2];
    [reflexivity|].
  split; [exact H1|]. apply H2. discriminate.
Defined.

(** X12. The parked vehicles survive a restart: after a session of
    console commands that reaches choice 0, started from any file, the
    file written on exit brings back exactly the vehicles that were
    parked at the end, in order.  The clock readings are [time_t] values
    other than 0, the plates are tokens, as [cin >> plate] reads them,
    and no status is asked for while a vehicle is parked whose entry time
    [ctime] cannot print (the program would end there without saving). *)
Theorem session_survives_restart (ctimeOk : Z -> bool) (start next : Z)
    (file : option string) (cmds : list (Z * Command)) :
  in_time_t start = true -> start <> 0 -> forallb commandOk cmds = true ->
  completes ctimeOk cmds (fst (ParkingLot_new start file)) = true ->
  parkedVehicles
    (fst (ParkingLot_new next (mainChecked ctimeOk start file cmds true))) =
  parkedVehicles (run cmds (fst (ParkingLot_new start file))).
Proof.
  intros Hr Hz Hc Hdone.
  pose proof (run_persistable cmds _ Hc
                (ParkingLot_new_persistable start file Hr Hz)) as Hrun.
  unfold mainChecked. rewrite Hdone. unfold main, ParkingLot_delete.
  set (lot := run cmds (fst (ParkingLot_new start file))) in *.
  cbn [saveData fst ParkingLot_new loadData parkedVehicles].
  rewrite <- (append_empty (saveLines (parkedVehicles lot))).
  rewrite (loadLoop_saveLines next _ EmptyString []
             (persistable_storable _ Hrun)), loadLoop_empty.
  apply (persistable_reload next _ Hrun).
Qed.

Lemma session_survives_restart_witness :
  parkedVehicles
    (fst (ParkingLot_new 1700090000
            (mainChecked sampleCtimeOk 1699990000 (Some sampleFile)
               sampleSession true))) =
  parkedVehicles
    (run sampleSession (fst (ParkingLot_new 1699990000 (Some sampleFile)))).
Proof.
  apply (session_survives_restart sampleCtimeOk 1699990000 1700090000
           (Some sampleFile) sampleSession);
    [reflexivity | discriminate | reflexivity | reflexivity].
Defined.

(** A status asked for while a vehicle with an unprintable entry time is
    parked ends the program: the car parked in the session is not in the
    file that the next run finds. *)
Example display_ends_session :
  completes sampleCtimeOk displaySession
    (fst (ParkingLot_new 1700000000 (Some farFutureFile))) = false
  /\ mainChecked sampleCtimeOk 1700000000 (Some farFutureFile) displaySession true
     = Some farFutureFile
  /\ map triple
       (parkedVehicles
          (fst (ParkingLot_new 1700090000
                  (mainChecked sampleCtimeOk 1700000000 (Some farFutureFile)
                     displaySession true)))) =
     [(Car, "A"%string, 4611686018427387904)].
Proof. repeat split. Qed.

(** * The status line of a vehicle *)

Section Display.

Lemma strlen_app (a b : string) :
  String.length (a ++ b) = (String.length a + String.length b)%nat.
Proof. induction a as [|x a IH]; simpl; [reflexivity | now rewrite IH]. Qed.

Lemma strlen_spaces n : String.length (spaces n) = n.
Proof. induction n as [|n IH]; simpl; [reflexivity | now rewrite IH]. Qed.

Lemma get_after (a : string) c r :
  String.get (String.length a) (a ++ String c r) = Some c.
Proof. induction a as [|x a IH]; simpl; [reflexivity | exact IH]. Qed.

Lemma substring_front (a r : string) :
  String.substring 0 (String.length a) (a ++ r) = a.
Proof.
  induction a as [|x a IH]; simpl.
  - now destruct r.
  - now rewrite IH.
Qed.

Lemma substring_after (a s : string) n m :
  String.substring (String.length a + n) m (a ++ s) = String.substring n m s.
Proof. induction a as [|x a IH]; simpl; [reflexivity | exact IH]. Qed.

Lemma last_split (s : string) c :
  s <> EmptyString ->
  String.get (String.length s - 1) s = Some c ->
  s = (String.substring 0 (String.length s - 1) s ++ String c EmptyString)%string.
Proof.
  induction s as [|a s IH]; [congruence|]. intros _ H.
  destruct s as [|b s'].
  - simpl in H. now injection H as ->.
  - replace (String.length (String a (String b s')) - 1)%nat
      with (S (String.length (String b s') - 1)) in H |- *
      by (simpl; lia).
    cbn [String.get String.substring] in H |- *.
    cbn [append]. f_equal. apply IH; [discriminate | exact H].
Qed.

Lemma trimNewline_newline body : trimNewline (body ++ newline) = body.
Proof.
  unfold trimNewline. rewrite strlen_app. unfold newline. simpl.
  replace (String.length body + 1 - 1)%nat with (String.length body) by lia.
  rewrite get_after.
  replace (String.length body + 1)%nat with (S (String.length body)) by lia.
  simpl. apply substring_front.
Qed.

Lemma putLeft_length w s :
  String.length (putLeft w s) = Nat.max w (String.length s).
Proof. unfold putLeft. rewrite strlen_app, strlen_spaces. lia. Qed.

Lemma getType_column v : String.length (putLeft 15 (getType v)) = 15%nat.
Proof. unfold getType. destruct (vclass v); reflexivity. Qed.

End Display.

(** X13. The status line drops the line break at the end of the text of
    [ctime] and nothing else: a text that ends in a line break loses
    exactly that character, any other text, the empty one included, is
    kept as it is. *)
Theorem trimNewline_spec (timeStr : string) :
  (exists body, timeStr = (body ++ newline)%string /\ trimNewline timeStr = body)
  \/ (trimNewline timeStr = timeStr
      /\ forall body, timeStr <> (body ++ newline)%string).
Proof.
  unfold trimNewline.
  destruct (String.get (String.length timeStr - 1) timeStr) as [c|] eqn:G.
  - destruct (negb (Nat.eqb (String.length timeStr) 0)
              && Ascii.eqb c (ascii_of_nat 10)) eqn:T.
    + left. apply andb_true_iff in T as [Hn Hc].
      apply Ascii.eqb_eq in Hc. subst c.
      assert (timeStr <> EmptyString) as Hne
        by (intros ->; discriminate Hn).
      exists (String.substring 0 (String.length timeStr - 1) timeStr).
      split; [|reflexivity]. exact (last_split timeStr _ Hne G).
    + right. split; [reflexivity|]. intros body ->.
      rewrite strlen_app in G, T. unfold newline in G, T. simpl in G, T.
      replace (String.length body + 1 - 1)%nat with (String.length body)
        in G by lia.
      rewrite get_after in G. injection G as <-.
      replace (String.length body + 1)%nat with (S (String.length body))
        in T by lia.
      discriminate T.
  - right. split; [reflexivity|]. intros body ->.
    rewrite strlen_app in G. unfold newline in G. simpl in G.
    replace (String.length body + 1 - 1)%nat with (String.length body)
      in G by lia.
    now rewrite get_after in G.
Qed.

(** X14. In the status line of a vehicle the type takes exactly 15
    columns, so the plate starts at column 15 and is written whole, however
    long it is; a plate of at most 15 characters is followed by spaces up
    to column 30, where the label of the entry time starts; the line ends
    with the text of [ctime] and one line break. *)
Theorem displayInfo_columns (ctime : Z -> string) (v : Vehicle)
    (body : string) :
  ctime (entryTime v) = (body ++ newline)%string ->
  String.substring 15 (String.length (getLicensePlate v)) (displayInfo ctime v)
    = getLicensePlate v
  /\ String.length (displayInfo ctime v) =
     (15 + Nat.max 15 (String.length (getLicensePlate v)) + 7
      + String.length body + 1)%nat
  /\ ((String.length (getLicensePlate v) <= 15)%nat ->
      String.substring 30 (7 + String.length body + 1) (displayInfo ctime v)
      = ("Entry: " ++ body ++ newline)%string).
Proof.
  intros Hc.
  unfold displayInfo. rewrite Hc, trimNewline_newline.
  pose proof (getType_column v) as H15.
  pose proof (putLeft_length 15 (getLicensePlate v)) as Hpl.
  split; [|split].
  - rewrite <- H15 at 1. rewrite <- (Nat.add_0_r (String.length _)) at 1.
    rewrite substring_after. unfold putLeft. rewrite !append_assoc.
    apply substring_front.
  - rewrite !strlen_app, H15, Hpl. unfold newline. simpl. lia.
  - intros Hle.
    assert (String.length (putLeft 15 (getLicensePlate v)) = 15%nat) as Hp15
      by (rewrite Hpl; lia).
    replace 30%nat
      with (String.length (putLeft 15 (getType v))
            + (String.length (putLeft 15 (getLicensePlate v)) + 0))%nat
      by (rewrite H15, Hp15; reflexivity).
    rewrite !substring_after.
    replace (7 + String.length body + 1)%nat
      with (String.length ("Entry: " ++ body ++ newline)%string)
      by (rewrite !strlen_app; unfold newline; simpl; lia).
    rewrite <- (append_empty ("Entry: " ++ body ++ newline)) at 2.
    apply substring_front.
Qed.

Lemma displayInfo_columns_witness :
  String.substring 15 (String.length (getLicensePlate (mkVehicle Truck "06XY77" 1700000000)))
    (displayInfo sampleCtime (mkVehicle Truck "06XY77" 1700000000))
    = getLicensePlate (mkVehicle Truck "06XY77" 1700000000)
  /\ String.length (displayInfo sampleCtime (mkVehicle Truck "06XY77" 1700000000)) =
     (15 + Nat.max 15 (String.length (getLicensePlate (mkVehicle Truck "06XY77" 1700000000)))
      + 7 + String.length "Tue Nov 14 22:13:20 2023" + 1)%nat
  /\ String.substring 30 (7 + String.length "Tue Nov 14 22:13:20 2023" + 1)
       (displayInfo sampleCtime (mkVehicle Truck "06XY77" 1700000000))
     = ("Entry: " ++ "Tue Nov 14 22:13:20 2023" ++ newline)%string.
Proof.
  destruct (displayInfo_columns sampleCtime (mkVehicle Truck "06XY77" 1700000000)
              "Tue Nov 14 22:13:20 2023" eq_refl) as (H1 & H2 & H3).
  split; [exact H1|]. split; [exact H2|]. apply H3. simpl. lia.
Defined.

Example displayInfo_sample :
  displayInfo sampleCtime (mkVehicle Truck "06XY77" 1700000000) =
  ("Truck          06XY77         Entry: Tue Nov 14 22:13:20 2023" ++ newline)%string.
Proof. reflexivity. Qed.
